(** * Adaptive cloud dashboard: the simulation API

    A shallow embedding of [adaptive-cloud-dashboard/cloud_simulation_api.py]:
    the global [simulation_state], the [WebSocketManager] registry and its
    broadcast, the three scenario coroutines, the REST handlers and the event
    loop that interleaves them.

    Conventions.
    - Python [float]s are rationals ([Q]).  Every property below rests on
      comparisons, [min] and [max] only, which are exact on floats; the
      values the random generator returns are inputs of the model.
    - Python [int]s are [Z].
    - A dict literal with constant keys is a record whose fields are the keys.
    - Exceptions are values: a computation returns [inl e] when it raises
      [e], and the state it has reached is kept (Python undoes nothing).
    - The random generator, the clock and the transport are the environment:
      each resumption of a coroutine receives the values they return.
    - [np.sin] is a parameter of the development.
    - The event loop is a function from a sequence of events (requests,
      websocket connections and disconnections, transports closing, and
      resumptions of the scenario tasks) to the state of the process. *)

From Stdlib Require Import ZArith QArith Qminmax Lqa Lia.
From Stdlib Require Import List String Bool Arith DecimalString.
Import ListNotations.

Set Implicit Arguments.
Local Open Scope string_scope.

(** ** Python exceptions and the state-and-exception monad *)

(** [str(e)] is kept symbolic: its text depends on the library version. *)
Inductive PyException : Type :=
| HTTPException (status_code : Z) (detail : ExcText)
| ValueError (msg : string)
| SendError
with ExcText : Type :=
| Lit (s : string)
| StrOf (e : PyException).

(** All three are subclasses of [Exception], which is what
    [except Exception] tests. *)
Definition is_Exception (e : PyException) : bool :=
  match e with
  | HTTPException _ _ => true
  | ValueError _ => true
  | SendError => true
  end.

Definition Py (S A : Type) : Type := S -> (PyException + A) * S.

Definition ret {S A} (a : A) : Py S A := fun s => (inr a, s).

Definition bind {S A B} (m : Py S A) (k : A -> Py S B) : Py S B :=
  fun s =>
    match m s with
    | (inl e, s') => (inl e, s')
    | (inr a, s') => k a s'
    end.

Definition raise {S A} (e : PyException) : Py S A := fun s => (inl e, s).

Definition get {S} : Py S S := fun s => (inr s, s).

Definition modify {S} (f : S -> S) : Py S unit := fun s => (inr tt, f s).

(** [try: body except Exception as e: handler(e)] *)
Definition try_except {S A} (body : Py S A) (handler : PyException -> Py S A)
  : Py S A :=
  fun s =>
    match body s with
    | (inl e, s') => if is_Exception e then handler e s' else (inl e, s')
    | (inr a, s') => (inr a, s')
    end.

Declare Scope py_scope.
Delimit Scope py_scope with py.
Notation "x <- m ;; k" := (bind m (fun x => k))
  (at level 61, m at next level, right associativity) : py_scope.
Notation "m ;;; k" := (bind m (fun _ => k))
  (at level 61, right associativity) : py_scope.

(** [for x in xs: body(x)] over a list that the body does not mutate. *)
Fixpoint for_each {S A} (xs : list A) (body : A -> Py S unit) : Py S unit :=
  match xs with
  | [] => ret tt
  | x :: xs' => (body x ;;; for_each xs' body)%py
  end.

(** ** Python built-ins on numbers *)

(** [min(a, b)] returns [b] only when [b < a]; [max(a, b)] only when
    [b > a].  These are [Qmin] and [Qmax], [Z.min] and [Z.max]. *)
Definition py_min (a b : Q) : Q := Qmin a b.
Definition py_max (a b : Q) : Q := Qmax a b.

(** [int(x)] on a float truncates toward zero. *)
Definition py_int (x : Q) : Z := Z.quot (Qnum x) (Zpos (Qden x)).

Definition ofZ (z : Z) : Q := inject_Z z.

(** [f"{i}"] for a non-negative integer. *)
Definition str_of_nat (n : nat) : string :=
  NilEmpty.string_of_uint (Nat.to_uint n).

(** ** The random generator

    One resumption of a coroutine sees the values its calls to the generator
    return: the [k]-th [np.random.normal], the [k]-th [np.random.random] and
    the entropy of the [k]-th [np.random.randint].  [randint lo hi] returns
    an integer of [lo <= r < hi], every one of them for some entropy. *)
Record Rng : Type := {
  normal : nat -> Q;
  random : nat -> Q;
  entropy : nat -> Z
}.

Definition randint (g : Rng) (k : nat) (lo hi : Z) : Z :=
  (lo + (entropy g k) mod (hi - lo))%Z.

(** ** Data model *)

Record Metrics : Type := {
  cpu_utilization : Q;
  ram_usage : Q;
  storage_usage : Q;
  bandwidth_usage : Q;
  vm_migration_count : Z
}.

Record ZoneEntry : Type := {
  vm_count : Z;
  utilization : Q
}.

Record ZoneStatus : Type := {
  high_resource_slow : ZoneEntry;
  medium : ZoneEntry;
  fast_small : ZoneEntry
}.

(** [vm_host_id] is the attribute [host_id] of the class; [Host] has one of
    that name too. *)
Record VirtualMachine : Type := {
  vm_id : string;
  cpu_req : Q;
  ram_req : Q;
  storage_req : Q;
  bandwidth_req : Q;
  current_zone : option string;
  vm_host_id : option string;
  migration_count : Z
}.

Record HostZone : Type := {
  hz_vms : list string;
  cpu_allocation : Z;
  ram_allocation : Z
}.

Record HostZones : Type := {
  hz_high_resource_slow : HostZone;
  hz_medium : HostZone;
  hz_fast_small : HostZone
}.

Record Host : Type := {
  host_id : string;
  total_cpu : Z;
  total_ram : Z;
  total_storage : Z;
  total_bandwidth : Z;
  available_cpu : Z;
  available_ram : Z;
  available_storage : Z;
  available_bandwidth : Z;
  zones : HostZones
}.

Record SimulationState : Type := {
  running : bool;
  scenario : string;
  metrics : Metrics;
  zone_status : ZoneStatus;
  vms : list VirtualMachine;
  hosts : list Host
}.

(** The module-level initial value of [simulation_state]; the startup event
    fills the inventory with [initialize_simulation]. *)
Definition zero_metrics : Metrics :=
  {| cpu_utilization := 0; ram_usage := 0; storage_usage := 0;
     bandwidth_usage := 0; vm_migration_count := 0 |}.

Definition zero_zone : ZoneEntry := {| vm_count := 0; utilization := 0 |}.

Definition zero_zone_status : ZoneStatus :=
  {| high_resource_slow := zero_zone; medium := zero_zone;
     fast_small := zero_zone |}.

Definition initial_simulation_state : SimulationState :=
  {| running := false; scenario := "idle"; metrics := zero_metrics;
     zone_status := zero_zone_status; vms := []; hosts := [] |}.

(** ** The process: global state, registry, tasks and transport *)

(** A [WebSocket] object is compared by identity. *)
Definition WebSocket : Type := nat.

(** The [metrics_update] event, before [json.dumps]. *)
Record Payload : Type := {
  type : string;
  data : Metrics;
  payload_zone_status : ZoneStatus;
  timestamp : string
}.

(** One call of [send_text], as the transport saw it. *)
Record SendAttempt : Type := {
  to : WebSocket;
  msg : Payload;
  delivered : bool
}.

(** The coroutines handed to [asyncio.create_task]. *)
Inductive Coroutine : Type :=
| Scenario_1_high_load
| Scenario_2_zone_migration
| Scenario_3_resource_scaling.

(** A task made by [asyncio.create_task]: which scenario coroutine it runs
    and the loop index at which it resumes. *)
Record Task : Type := {
  coro : Coroutine;
  next_step : nat
}.

Record World : Type := {
  simulation_state : SimulationState;
  active_connections : list WebSocket;
  tasks : list Task;
  closed : list WebSocket;
  wire : list SendAttempt
}.

Definition initial_world : World :=
  {| simulation_state := initial_simulation_state; active_connections := [];
     tasks := []; closed := []; wire := [] |}.

Definition set_simulation_state (f : SimulationState -> SimulationState)
  (w : World) : World :=
  {| simulation_state := f (simulation_state w);
     active_connections := active_connections w; tasks := tasks w;
     closed := closed w; wire := wire w |}.

Definition set_active_connections (l : list WebSocket) (w : World) : World :=
  {| simulation_state := simulation_state w; active_connections := l;
     tasks := tasks w; closed := closed w; wire := wire w |}.

Definition set_tasks (l : list Task) (w : World) : World :=
  {| simulation_state := simulation_state w;
     active_connections := active_connections w; tasks := l;
     closed := closed w; wire := wire w |}.

Definition set_closed (l : list WebSocket) (w : World) : World :=
  {| simulation_state := simulation_state w;
     active_connections := active_connections w; tasks := tasks w;
     closed := l; wire := wire w |}.

Definition log_send (a : SendAttempt) (w : World) : World :=
  {| simulation_state := simulation_state w;
     active_connections := active_connections w; tasks := tasks w;
     closed := closed w; wire := (wire w ++ [a])%list |}.

Definition set_wire (l : list SendAttempt) (w : World) : World :=
  {| simulation_state := simulation_state w;
     active_connections := active_connections w; tasks := tasks w;
     closed := closed w; wire := l |}.

Definition set_running (b : bool) (s : SimulationState) : SimulationState :=
  {| running := b; scenario := scenario s; metrics := metrics s;
     zone_status := zone_status s; vms := vms s; hosts := hosts s |}.

Definition set_scenario (n : string) (s : SimulationState) : SimulationState :=
  {| running := running s; scenario := n; metrics := metrics s;
     zone_status := zone_status s; vms := vms s; hosts := hosts s |}.

Definition set_metrics (m : Metrics) (s : SimulationState) : SimulationState :=
  {| running := running s; scenario := scenario s; metrics := m;
     zone_status := zone_status s; vms := vms s; hosts := hosts s |}.

Definition set_zone_status (z : ZoneStatus) (s : SimulationState)
  : SimulationState :=
  {| running := running s; scenario := scenario s; metrics := metrics s;
     zone_status := z; vms := vms s; hosts := hosts s |}.

Definition set_vms (l : list VirtualMachine) (s : SimulationState)
  : SimulationState :=
  {| running := running s; scenario := scenario s; metrics := metrics s;
     zone_status := zone_status s; vms := l; hosts := hosts s |}.

Definition set_hosts (l : list Host) (s : SimulationState) : SimulationState :=
  {| running := running s; scenario := scenario s; metrics := metrics s;
     zone_status := zone_status s; vms := vms s; hosts := l |}.

(** [simulation_state[key] = value] *)
Definition assign (f : SimulationState -> SimulationState) : Py World unit :=
  modify (set_simulation_state f).

(** ** Python lists of connections *)

(** [x in l] *)
Definition py_in (x : WebSocket) (l : list WebSocket) : bool :=
  existsb (Nat.eqb x) l.

(** [l.remove(x)]: drops the first item equal to [x]; [None] stands for the
    [ValueError] of a list without such an item. *)
Fixpoint list_remove (x : WebSocket) (l : list WebSocket)
  : option (list WebSocket) :=
  match l with
  | [] => None
  | y :: l' =>
      if Nat.eqb y x then Some l'
      else match list_remove x l' with
           | Some r => Some (y :: r)
           | None => None
           end
  end.

(** ** class WebSocketManager *)

(** [await connection.send_text(message)]: raises on a closed transport. *)
Definition send_text (connection : WebSocket) (message : Payload)
  : Py World unit :=
  fun w =>
    if py_in connection (closed w)
    then (inl SendError,
          log_send {| to := connection; msg := message; delivered := false |} w)
    else (inr tt,
          log_send {| to := connection; msg := message; delivered := true |} w).

(** [await websocket.accept()] is taken to succeed. *)
Definition connect (websocket : WebSocket) : Py World unit :=
  modify (fun w =>
    set_active_connections (active_connections w ++ [websocket])%list w).

Definition active_connections_remove (websocket : WebSocket) : Py World unit :=
  fun w =>
    match list_remove websocket (active_connections w) with
    | Some l => (inr tt, set_active_connections l w)
    | None => (inl (ValueError "list.remove(x): x not in list"), w)
    end.

Definition disconnect (websocket : WebSocket) : Py World unit :=
  (w <- get ;;
   if py_in websocket (active_connections w)
   then active_connections_remove websocket
   else ret tt)%py.

(** The first loop of [broadcast]: the sends, with the local list
    [disconnected] threaded through. *)
Fixpoint broadcast_sends (conns : list WebSocket) (message : Payload)
  (disconnected : list WebSocket) : Py World (list WebSocket) :=
  match conns with
  | [] => ret disconnected
  | connection :: rest =>
      (d <- try_except
              (send_text connection message ;;; ret disconnected)
              (fun _ => ret (disconnected ++ [connection])%list) ;;
       broadcast_sends rest message d)%py
  end.

(** [broadcast] when no other task runs between its sends: the first loop
    then iterates the registry as it is at the call.  The pass that other
    tasks interleave with at each [await] is [broadcast_interleaved]
    below. *)
Definition broadcast (message : Payload) : Py World unit :=
  (w <- get ;;
   match active_connections w with
   | [] => ret tt
   | _ :: _ =>
       disconnected <- broadcast_sends (active_connections w) message [] ;;
       for_each disconnected disconnect
   end)%py.

(** ** initialize_simulation *)

Definition empty_host_zone : HostZone :=
  {| hz_vms := []; cpu_allocation := 0; ram_allocation := 0 |}.

(** [Host.__init__] *)
Definition new_Host (id : string) (cpu ram storage bandwidth : Z) : Host :=
  {| host_id := id;
     total_cpu := cpu; total_ram := ram;
     total_storage := storage; total_bandwidth := bandwidth;
     available_cpu := cpu; available_ram := ram;
     available_storage := storage; available_bandwidth := bandwidth;
     zones := {| hz_high_resource_slow := empty_host_zone;
                 hz_medium := empty_host_zone;
                 hz_fast_small := empty_host_zone |} |}.

(** [VirtualMachine.__init__] *)
Definition new_VirtualMachine (id : string) (cpu ram storage bandwidth : Q)
  : VirtualMachine :=
  {| vm_id := id; cpu_req := cpu; ram_req := ram; storage_req := storage;
     bandwidth_req := bandwidth; current_zone := None; vm_host_id := None;
     migration_count := 0 |}.

Definition make_hosts : list Host :=
  map (fun i => new_Host ("Host_" ++ str_of_nat i) 200 16000 500000 1000)
      (seq 0 5).

(** The [i]-th VM takes the draws [4*i .. 4*i+3] of the generator. *)
Definition make_vms (g : Rng) : list VirtualMachine :=
  map (fun i =>
         let cpu_req := py_max 10 (normal g (4 * i)) in
         let ram_req := py_max 1000 (normal g (4 * i + 1)) in
         let storage_req := py_max 10000 (normal g (4 * i + 2)) in
         let bandwidth_req := py_max 10 (normal g (4 * i + 3)) in
         new_VirtualMachine ("VM_" ++ str_of_nat i)
           cpu_req ram_req storage_req bandwidth_req)
      (seq 0 15).

Definition initialize_simulation (g : Rng) : Py World unit :=
  (let hosts := make_hosts in
   let vms := make_vms g in
   assign (set_hosts hosts) ;;;
   assign (set_vms vms))%py.

(** ** class SimulationScenario *)

(** What one resumption of a coroutine reads from outside the process: the
    generator's values and [datetime.now().isoformat()]. *)
Record Env : Type := {
  rng : Rng;
  now : string
}.

Definition qstep (step : nat) : Q := inject_Z (Z.of_nat step).

(** [a < b] on floats, as a boolean. *)
Definition Qltb (a b : Q) : bool :=
  match Qcompare a b with
  | Lt => true
  | _ => false
  end.

(** The broadcast that ends every step of every scenario. *)
Definition publish (env : Env) : Py World unit :=
  (w <- get ;;
   broadcast {| type := "metrics_update";
                data := metrics (simulation_state w);
                payload_zone_status := zone_status (simulation_state w);
                timestamp := now env |})%py.

(** *** Scenario 1: high load *)

Definition scenario_1_cpu_util (step : nat) (g : Rng) : Q :=
  py_min 95 (60 + qstep step * (12 # 10) + normal g 0).

Definition scenario_1_metrics (step : nat) (g : Rng) (count : Z) : Metrics :=
  let cpu_util := scenario_1_cpu_util step g in
  let ram_usage := py_min 90 (50 + qstep step * 1 + normal g 1) in
  let storage_usage := py_min 85 (40 + qstep step * (8 # 10) + normal g 2) in
  let bandwidth_usage := py_min 80 (35 + qstep step * (6 # 10) + normal g 3) in
  let migration_count :=
    if Qltb 80 cpu_util && Qltb (random g 0) (3 # 10)
    then (count + 1)%Z else count in
  {| cpu_utilization := py_max 0 cpu_util;
     ram_usage := py_max 0 ram_usage;
     storage_usage := py_max 0 storage_usage;
     bandwidth_usage := py_max 0 bandwidth_usage;
     vm_migration_count := migration_count |}.

Definition scenario_1_zone_status (step : nat) (g : Rng) : ZoneStatus :=
  let cpu_util := scenario_1_cpu_util step g in
  {| high_resource_slow :=
       {| vm_count := Z.max 0 (8 + randint g 0 (-2) 3);
          utilization := py_min 100 (cpu_util + normal g 4) |};
     medium :=
       {| vm_count := Z.max 0 (5 + randint g 1 (-1) 2);
          utilization := py_min 100 (cpu_util * (7 # 10) + normal g 5) |};
     fast_small :=
       {| vm_count := Z.max 0 (2 + randint g 2 (-1) 2);
          utilization := py_min 100 (cpu_util * (4 # 10) + normal g 6) |} |}.

(** The body of [for step in range(30)], up to [await asyncio.sleep(1)]. *)
Definition scenario_1_step (step : nat) (env : Env) : Py World unit :=
  (w <- get ;;
   let migration_count := vm_migration_count (metrics (simulation_state w)) in
   assign (set_metrics (scenario_1_metrics step (rng env) migration_count)) ;;;
   assign (set_zone_status (scenario_1_zone_status step (rng env))) ;;;
   publish env)%py.

Definition scenario_1_high_load (envs : nat -> Env) : Py World unit :=
  (assign (set_scenario "high_load") ;;;
   for_each (seq 0 30) (fun step => scenario_1_step step (envs step)))%py.

(** *** Scenario 2: zone migration *)

Definition scenario_2_high_zone_load (step : nat) : Q :=
  if (step <? 10)%nat then 90 - qstep step * 2
  else py_max 40 (70 - (qstep step - 10) * 2).

Definition scenario_2_medium_zone_load (step : nat) : Q :=
  if (step <? 10)%nat then 40 + qstep step * 3
  else py_min 80 (60 + (qstep step - 10) * 1).

Definition scenario_2_fast_zone_load (step : nat) : Q :=
  if (step <? 10)%nat then 20 + qstep step * 1
  else py_min 60 (30 + (qstep step - 10) * (15 # 10)).

Definition scenario_2_metrics (step : nat) (g : Rng) (count : Z) : Metrics :=
  let high_zone_load := scenario_2_high_zone_load step in
  let medium_zone_load := scenario_2_medium_zone_load step in
  let fast_zone_load := scenario_2_fast_zone_load step in
  let migration_count :=
    if (8 <=? step)%nat && (step <=? 15)%nat
    then (count + randint g 0 1 4)%Z else count in
  let avg_utilization :=
    (high_zone_load + medium_zone_load + fast_zone_load) / 3 in
  {| cpu_utilization := avg_utilization;
     ram_usage := avg_utilization * (9 # 10);
     storage_usage := avg_utilization * (7 # 10);
     bandwidth_usage := avg_utilization * (6 # 10);
     vm_migration_count := migration_count |}.

Definition scenario_2_zone_status (step : nat) : ZoneStatus :=
  {| high_resource_slow :=
       {| vm_count := Z.max 2 (py_int (8 - qstep step * (2 # 10)));
          utilization := py_max 0 (scenario_2_high_zone_load step) |};
     medium :=
       {| vm_count := Z.max 3 (py_int (5 + qstep step * (1 # 10)));
          utilization := py_max 0 (scenario_2_medium_zone_load step) |};
     fast_small :=
       {| vm_count := Z.max 1 (py_int (2 + qstep step * (1 # 10)));
          utilization := py_max 0 (scenario_2_fast_zone_load step) |} |}.

(** The body of [for step in range(25)], up to [await asyncio.sleep(1.2)]. *)
Definition scenario_2_step (step : nat) (env : Env) : Py World unit :=
  (w <- get ;;
   let migration_count := vm_migration_count (metrics (simulation_state w)) in
   assign (set_metrics (scenario_2_metrics step (rng env) migration_count)) ;;;
   assign (set_zone_status (scenario_2_zone_status step)) ;;;
   publish env)%py.

Definition scenario_2_zone_migration (envs : nat -> Env) : Py World unit :=
  (assign (set_scenario "zone_migration") ;;;
   for_each (seq 0 25) (fun step => scenario_2_step step (envs step)))%py.

(** *** Scenario 3: resource scaling, and everything that can run it

    [np.sin] is numpy's; the development is parametric in it. *)

Section WithNumpy.

Variable np_sin : Q -> Q.

Definition scenario_3_scale_factor (step : nat) : Q :=
  1 + (5 # 10) * np_sin (qstep step * (3 # 10)).

Definition scenario_3_base_cpu (step : nat) (g : Rng) : Q :=
  45 * scenario_3_scale_factor step + normal g 0.

Definition scenario_3_base_ram (step : nat) (g : Rng) : Q :=
  50 * scenario_3_scale_factor step + normal g 1.

Definition scenario_3_base_storage (step : nat) (g : Rng) : Q :=
  35 * scenario_3_scale_factor step + normal g 2.

Definition scenario_3_base_bandwidth (step : nat) (g : Rng) : Q :=
  40 * scenario_3_scale_factor step + normal g 3.

Definition scenario_3_metrics (step : nat) (g : Rng) (count : Z) : Metrics :=
  {| cpu_utilization := py_min 100 (py_max 0 (scenario_3_base_cpu step g));
     ram_usage := py_min 100 (py_max 0 (scenario_3_base_ram step g));
     storage_usage := py_min 100 (py_max 0 (scenario_3_base_storage step g));
     bandwidth_usage :=
       py_min 100 (py_max 0 (scenario_3_base_bandwidth step g));
     vm_migration_count :=
       (count + (if Z.of_nat step mod 4 =? 0 then 1 else 0))%Z |}.

Definition scenario_3_zone_status (step : nat) (g : Rng) : ZoneStatus :=
  let total_utilization :=
    (scenario_3_base_cpu step g + scenario_3_base_ram step g
     + scenario_3_base_storage step g + scenario_3_base_bandwidth step g) / 4 in
  {| high_resource_slow :=
       {| vm_count :=
            Z.max 2 (py_int (6 + 2 * np_sin (qstep step * (2 # 10))));
          utilization :=
            py_min 100 (py_max 0 (total_utilization * (12 # 10))) |};
     medium :=
       {| vm_count :=
            Z.max 3 (py_int (7 + np_sin (qstep step * (15 # 100))));
          utilization := py_min 100 (py_max 0 total_utilization) |};
     fast_small :=
       {| vm_count :=
            Z.max 1 (py_int (3 + np_sin (qstep step * (25 # 100))));
          utilization :=
            py_min 100 (py_max 0 (total_utilization * (8 # 10))) |} |}.

(** The body of [for step in range(20)], up to [await asyncio.sleep(1.5)]. *)
Definition scenario_3_step (step : nat) (env : Env) : Py World unit :=
  (w <- get ;;
   let migration_count := vm_migration_count (metrics (simulation_state w)) in
   assign (set_metrics (scenario_3_metrics step (rng env) migration_count)) ;;;
   assign (set_zone_status (scenario_3_zone_status step (rng env))) ;;;
   publish env)%py.

Definition scenario_3_resource_scaling (envs : nat -> Env) : Py World unit :=
  (assign (set_scenario "resource_scaling") ;;;
   for_each (seq 0 20) (fun step => scenario_3_step step (envs step)))%py.

(** ** Tasks on the event loop

    A resumption is the stretch of a coroutine from one [await
    asyncio.sleep] to the next.  The writes of a step have no [await]
    between them; the sends of its broadcast are taken here to complete with
    no other task in between (a broadcast that other tasks interleave with
    is modelled further down). *)

Definition step_count (t : Task) : nat :=
  match coro t with
  | Scenario_1_high_load => 30
  | Scenario_2_zone_migration => 25
  | Scenario_3_resource_scaling => 20
  end.

(** The statements before the loop. *)
Definition prologue (t : Task) : Py World unit :=
  match coro t with
  | Scenario_1_high_load => assign (set_scenario "high_load")
  | Scenario_2_zone_migration => assign (set_scenario "zone_migration")
  | Scenario_3_resource_scaling => assign (set_scenario "resource_scaling")
  end.

Definition loop_body (t : Task) (step : nat) (env : Env) : Py World unit :=
  match coro t with
  | Scenario_1_high_load => scenario_1_step step env
  | Scenario_2_zone_migration => scenario_2_step step env
  | Scenario_3_resource_scaling => scenario_3_step step env
  end.

(** A task is alive until its loop has run [step_count] times. *)
Definition alive (t : Task) : bool := (next_step t <? step_count t)%nat.

(** One resumption: the first one also runs the prologue. *)
Definition resume (t : Task) (env : Env) : Py World Task :=
  if alive t then
    ((if (next_step t =? 0)%nat then prologue t else ret tt) ;;;
     loop_body t (next_step t) env ;;;
     ret {| coro := coro t; next_step := S (next_step t) |})%py
  else ret t.

(** [asyncio.create_task(coroutine)] *)
Definition create_task (c : Coroutine) : Py World unit :=
  modify (fun w =>
    set_tasks (tasks w ++ [{| coro := c; next_step := 0 |}])%list w).

Fixpoint replace_nth {A} (i : nat) (x : A) (l : list A) : list A :=
  match l, i with
  | [], _ => []
  | _ :: l', O => x :: l'
  | y :: l', S i' => y :: replace_nth i' x l'
  end.

(** The loop resumes task [i]; a task that raises is finished. *)
Definition wake (i : nat) (env : Env) (w : World) : World :=
  match nth_error (tasks w) i with
  | None => w
  | Some t =>
      match resume t env w with
      | (inr t', w') => set_tasks (replace_nth i t' (tasks w')) w'
      | (inl _, w') =>
          set_tasks
            (replace_nth i {| coro := coro t; next_step := step_count t |}
               (tasks w')) w'
      end
  end.

(** ** API routes *)

Record Reply : Type := {
  message : string;
  status : string
}.

Definition str_of_Z (z : Z) : string := NilEmpty.string_of_int (Z.to_int z).

Definition start_scenario (scenario_id : Z) : Py World Reply :=
  (w <- get ;;
   (if running (simulation_state w)
    then raise (HTTPException 400 (Lit "Simulation already running"))
    else ret tt) ;;;
   assign (set_running true) ;;;
   try_except
     ((if (scenario_id =? 1)%Z then create_task Scenario_1_high_load
       else if (scenario_id =? 2)%Z
       then create_task Scenario_2_zone_migration
       else if (scenario_id =? 3)%Z
       then create_task Scenario_3_resource_scaling
       else (assign (set_running false) ;;;
             raise (HTTPException 400 (Lit "Invalid scenario ID")))) ;;;
      ret {| message := "Started scenario " ++ str_of_Z scenario_id;
             status := "success" |})
     (fun e =>
        assign (set_running false) ;;;
        raise (HTTPException 500 (StrOf e))))%py.

Definition stop_simulation : Py World Reply :=
  (assign (set_running false) ;;;
   assign (set_scenario "idle") ;;;
   ret {| message := "Simulation stopped"; status := "success" |})%py.

Definition reset_simulation (g : Rng) : Py World Reply :=
  (assign (set_running false) ;;;
   assign (set_scenario "idle") ;;;
   assign (set_metrics
     {| cpu_utilization := 0; ram_usage := 0; storage_usage := 0;
        bandwidth_usage := 0; vm_migration_count := 0 |}) ;;;
   assign (set_zone_status
     {| high_resource_slow := {| vm_count := 0; utilization := 0 |};
        medium := {| vm_count := 0; utilization := 0 |};
        fast_small := {| vm_count := 0; utilization := 0 |} |}) ;;;
   initialize_simulation g ;;;
   ret {| message := "Simulation reset"; status := "success" |})%py.

(** The status line FastAPI answers with. *)
Definition http_status {A} (r : PyException + A) : Z :=
  match r with
  | inr _ => 200
  | inl (HTTPException code _) => code
  | inl _ => 500
  end.

(** ** The event loop *)

Inductive Event : Type :=
| Post_scenario (scenario_id : Z)
| Post_stop
| Post_reset (g : Rng)
| Ws_connect (websocket : WebSocket)
| Ws_disconnect (websocket : WebSocket)
| Transport_closed (websocket : WebSocket)
| Resume (i : nat) (env : Env).

Definition exec (ev : Event) (w : World) : World :=
  match ev with
  | Post_scenario scenario_id => snd (start_scenario scenario_id w)
  | Post_stop => snd (stop_simulation w)
  | Post_reset g => snd (reset_simulation g w)
  | Ws_connect websocket => snd (connect websocket w)
  | Ws_disconnect websocket => snd (disconnect websocket w)
  | Transport_closed websocket => set_closed (websocket :: closed w) w
  | Resume i env => wake i env w
  end.

Definition run (evs : list Event) (w : World) : World :=
  fold_left (fun w ev => exec ev w) evs w.

(** ** [broadcast], one await at a time

    [await connection.send_text(message)] may suspend the coroutine, and
    other tasks may then change the registry that the first loop of
    [broadcast] is iterating.  A list iterator keeps an index and reads the
    list as it is at each step. *)

Record Pass : Type := {
  pass_message : Payload;
  pass_index : nat;
  pass_disconnected : list WebSocket
}.

(** One turn of the first loop, or, when the iterator is exhausted, the
    second loop and the return.  [inl]: still in the first loop; [inr]:
    returned, with the local [disconnected] for reference. *)
Definition pass_step (p : Pass) : Py World (Pass + list WebSocket) :=
  (w <- get ;;
   match nth_error (active_connections w) (pass_index p) with
   | Some connection =>
       d <- try_except
              (send_text connection (pass_message p) ;;;
               ret (pass_disconnected p))
              (fun _ => ret (pass_disconnected p ++ [connection])%list) ;;
       ret (inl {| pass_message := pass_message p;
                   pass_index := S (pass_index p);
                   pass_disconnected := d |})
   | None =>
       for_each (pass_disconnected p) disconnect ;;;
       ret (inr (pass_disconnected p))
   end)%py.

(** The rest of a pass when no other task runs until it returns. *)
Definition pass_finish (p : Pass) : Py World (list WebSocket) :=
  (w <- get ;;
   d <- broadcast_sends (skipn (pass_index p) (active_connections w))
          (pass_message p) (pass_disconnected p) ;;
   for_each d disconnect ;;;
   ret d)%py.

(** A pass from [p] on: after each turn of the first loop the events of the
    next batch of the schedule run; once the schedule is used up the pass
    runs to its end without interruption. *)
Fixpoint broadcast_from (sched : list (list Event)) (p : Pass)
  : Py World (list WebSocket) :=
  match sched with
  | [] => pass_finish p
  | evs :: sched' =>
      (r <- pass_step p ;;
       match r with
       | inr failed => ret failed
       | inl p' => modify (run evs) ;;; broadcast_from sched' p'
       end)%py
  end.

(** [broadcast(message)] under a schedule of the other tasks; returns the
    connections whose send failed. *)
Definition broadcast_interleaved (message : Payload)
  (sched : list (list Event)) : Py World (list WebSocket) :=
  (w <- get ;;
   match active_connections w with
   | [] => ret []
   | _ :: _ =>
       broadcast_from sched
         {| pass_message := message; pass_index := 0;
            pass_disconnected := [] |}
   end)%py.

End WithNumpy.

(** ** Views used by the statements *)

(** What the transport records for one send of [message] to [c] when the
    closed transports are [cl]. *)
Definition attempt (cl : list WebSocket) (message : Payload) (c : WebSocket)
  : SendAttempt :=
  {| to := c; msg := message; delivered := negb (py_in c cl) |}.

Definition is_open (cl : list WebSocket) (c : WebSocket) : bool :=
  negb (py_in c cl).

(** The world a broadcast is meant to leave: one send per registered
    connection, in order, and the connections whose send failed gone. *)
Definition after_broadcast (message : Payload) (w : World) : World :=
  {| simulation_state := simulation_state w;
     active_connections := filter (is_open (closed w)) (active_connections w);
     tasks := tasks w;
     closed := closed w;
     wire := (wire w ++ map (attempt (closed w) message)
                          (active_connections w))%list |}.

(** The sends recorded between an earlier world and a later one. *)
Definition sent_since (w w' : World) : list SendAttempt :=
  skipn (List.length (wire w)) (wire w').

(** The four percentage fields lie in [[0, 100]]. *)
Definition percent (x : Q) : Prop := 0 <= x /\ x <= 100.

Definition percent_metrics (m : Metrics) : Prop :=
  percent (cpu_utilization m) /\ percent (ram_usage m) /\
  percent (storage_usage m) /\ percent (bandwidth_usage m).

Definition zone_entry_ok (z : ZoneEntry) : Prop :=
  (0 <= vm_count z)%Z /\ percent (utilization z).

Definition zone_status_ok (z : ZoneStatus) : Prop :=
  zone_entry_ok (high_resource_slow z) /\ zone_entry_ok (medium z) /\
  zone_entry_ok (fast_small z).

Definition migrations (w : World) : Z :=
  vm_migration_count (metrics (simulation_state w)).

Definition is_connect_of (c : WebSocket) (ev : Event) : bool :=
  match ev with
  | Ws_connect c' => Nat.eqb c' c
  | _ => false
  end.

Definition is_reset (ev : Event) : bool :=
  match ev with
  | Post_reset _ => true
  | _ => false
  end.

(** The step of a stepper, which is where another [broadcast] runs. *)
Definition is_resume (ev : Event) : bool :=
  match ev with
  | Resume _ _ => true
  | _ => false
  end.

Definition is_close_of (c : WebSocket) (ev : Event) : bool :=
  match ev with
  | Transport_closed c' => Nat.eqb c' c
  | _ => false
  end.

(** The events in which nothing touches the registry: the requests of the
    REST routes and a transport that closes. *)
Definition keeps_registry (ev : Event) : bool :=
  match ev with
  | Post_scenario _ | Post_stop | Post_reset _ | Transport_closed _ => true
  | Ws_connect _ | Ws_disconnect _ | Resume _ _ => false
  end.

(** A send that raised. *)
Definition failed_send (a : SendAttempt) : bool := negb (delivered a).

(** The state after a step has assigned [metrics] and [zone_status]. *)
Definition written (m : Metrics) (z : ZoneStatus) (w : World) : World :=
  set_simulation_state (fun s => set_zone_status z (set_metrics m s)) w.

(** The event a step broadcasts from world [w]. *)
Definition step_payload (env : Env) (w : World) : Payload :=
  {| type := "metrics_update";
     data := metrics (simulation_state w);
     payload_zone_status := zone_status (simulation_state w);
     timestamp := now env |}.

Definition scenario_name (t : Task) : string :=
  match coro t with
  | Scenario_1_high_load => "high_load"
  | Scenario_2_zone_migration => "zone_migration"
  | Scenario_3_resource_scaling => "resource_scaling"
  end.

Section TaskViews.

Variable np_sin : Q -> Q.

(** The metrics and zone status that task [t] computes at [step]. *)
Definition task_metrics (t : Task) (step : nat) (g : Rng) (count : Z)
  : Metrics :=
  match coro t with
  | Scenario_1_high_load => scenario_1_metrics step g count
  | Scenario_2_zone_migration => scenario_2_metrics step g count
  | Scenario_3_resource_scaling => scenario_3_metrics np_sin step g count
  end.

Definition task_zone_status (t : Task) (step : nat) (g : Rng) : ZoneStatus :=
  match coro t with
  | Scenario_1_high_load => scenario_1_zone_status step g
  | Scenario_2_zone_migration => scenario_2_zone_status step
  | Scenario_3_resource_scaling => scenario_3_zone_status np_sin step g
  end.

(** The world in which a live task [t], resumed in [w], computes and
    writes: [w] itself, or [w] with the scenario named on the first
    resumption. *)
Definition entered (t : Task) (w : World) : World :=
  if (next_step t =? 0)%nat
  then set_simulation_state (set_scenario (scenario_name t)) w
  else w.

(** The snapshot a live task [t] writes when resumed in [w]. *)
Definition stepped (t : Task) (env : Env) (w : World) : World :=
  written
    (task_metrics t (next_step t) (rng env) (migrations w))
    (task_zone_status t (next_step t) (rng env))
    (entered t w).

Definition advanced (t : Task) : Task :=
  {| coro := coro t; next_step := S (next_step t) |}.

End TaskViews.

(** The events that resume task [i] until its loop has run [n] times more. *)
Definition resumptions (i : nat) (envs : nat -> Env) (n : nat) : list Event :=
  map (fun k => Resume i (envs k)) (seq 0 n).

(** ** Concrete environments, for the examples *)

(** Stands for [np.sin] where scenario 3 is not run. *)
Definition sin_zero (x : Q) : Q := 0.

(** A generator that returns 0 for every draw. *)
Definition calm : Rng :=
  {| normal := fun _ => 0; random := fun _ => 0; entropy := fun _ => 0%Z |}.

Definition calm_env : Env := {| rng := calm; now := "2024-01-01T00:00:00" |}.

(** A generator whose first normal draw (the CPU jitter, sigma 5) is -12 and
    whose fifth (the jitter of the first zone, sigma 10) is -49. *)
Definition cold : Rng :=
  {| normal := fun k => match k with
                        | 0%nat => - (12 # 1)
                        | 4%nat => - (49 # 1)
                        | _ => 0
                        end;
     random := fun _ => 0;
     entropy := fun _ => 0%Z |}.

Definition cold_env : Env := {| rng := cold; now := "2024-01-01T00:00:00" |}.

(** One subscriber, scenario 1 started and its first step done, then
    [POST /api/stop]. *)
Definition stopped_mid_run : World :=
  run sin_zero
      [Ws_connect 7%nat; Post_scenario 1; Resume 0 calm_env; Post_stop]
      initial_world.

(** One subscriber and scenario 1 started, before its first step. *)
Definition just_started : World :=
  run sin_zero [Ws_connect 7%nat; Post_scenario 1] initial_world.

Definition first_task : Task :=
  {| coro := Scenario_1_high_load; next_step := 0 |}.

(** Three subscribers, the transport of the second one closed. *)
Definition three_subscribers : World :=
  run sin_zero
      [Ws_connect 1%nat; Ws_connect 2%nat; Ws_connect 3%nat;
       Transport_closed 2%nat]
      initial_world.

Definition hello : Payload :=
  step_payload calm_env initial_world.

(** ** The read-only routes, the websocket route and the startup event *)

(** The dict [get_status] returns. *)
Record StatusReply : Type := {
  simulation_running : bool;
  current_scenario : string;
  status_metrics : Metrics;
  status_zone_status : ZoneStatus
}.

Definition get_status : Py World StatusReply :=
  (w <- get ;;
   ret {| simulation_running := running (simulation_state w);
          current_scenario := scenario (simulation_state w);
          status_metrics := metrics (simulation_state w);
          status_zone_status := zone_status (simulation_state w) |})%py.

(** [GET /]: a constant. *)
Definition root : Py World Reply :=
  ret {| message := "Adaptive Cloud Simulation API"; status := "running" |}.

(** The dicts of [VirtualMachine.to_dict] and [Host.to_dict]; the keys are
    those of the source. *)
Module VmDict.
Record t : Type := {
  vm_id : string;
  cpu_req : Q;
  ram_req : Q;
  storage_req : Q;
  bandwidth_req : Q;
  current_zone : option string;
  host_id : option string;
  migration_count : Z
}.
End VmDict.

Module HostDict.
Record t : Type := {
  host_id : string;
  total_cpu : Z;
  total_ram : Z;
  total_storage : Z;
  total_bandwidth : Z;
  available_cpu : Z;
  available_ram : Z;
  available_storage : Z;
  available_bandwidth : Z;
  zones : HostZones
}.
End HostDict.

Definition VirtualMachine_to_dict (v : VirtualMachine) : VmDict.t :=
  {| VmDict.vm_id := vm_id v;
     VmDict.cpu_req := cpu_req v;
     VmDict.ram_req := ram_req v;
     VmDict.storage_req := storage_req v;
     VmDict.bandwidth_req := bandwidth_req v;
     VmDict.current_zone := current_zone v;
     VmDict.host_id := vm_host_id v;
     VmDict.migration_count := migration_count v |}.

Definition Host_to_dict (h : Host) : HostDict.t :=
  {| HostDict.host_id := host_id h;
     HostDict.total_cpu := total_cpu h;
     HostDict.total_ram := total_ram h;
     HostDict.total_storage := total_storage h;
     HostDict.total_bandwidth := total_bandwidth h;
     HostDict.available_cpu := available_cpu h;
     HostDict.available_ram := available_ram h;
     HostDict.available_storage := available_storage h;
     HostDict.available_bandwidth := available_bandwidth h;
     HostDict.zones := zones h |}.

Definition get_hosts : Py World (list HostDict.t) :=
  (w <- get ;; ret (map Host_to_dict (hosts (simulation_state w))))%py.

Definition get_vms : Py World (list VmDict.t) :=
  (w <- get ;; ret (map VirtualMachine_to_dict (vms (simulation_state w))))%py.

(** [@app.on_event("startup")] *)
Definition startup_event (g : Rng) : Py World unit :=
  initialize_simulation g.

(** The process once it has started. *)
Definition booted (g : Rng) : World := snd (startup_event g initial_world).

(** What [await websocket.receive_text()] does in turn: it returns a text,
    raises [WebSocketDisconnect], or raises something else (a binary frame
    has no text to return). *)
Inductive Received : Type :=
| Text (s : string)
| WebSocketDisconnect
| Raised (e : PyException).

(** The [while True] of [websocket_endpoint] over what has been received so
    far: a text is dropped, [WebSocketDisconnect] ends the handler in
    [manager.disconnect], the one [except] clause there is; any other
    exception leaves the handler as it is.  With nothing more received the
    handler waits. *)
Fixpoint receive_loop (websocket : WebSocket) (inbox : list Received)
  : Py World unit :=
  match inbox with
  | [] => ret tt
  | Text _ :: inbox' => receive_loop websocket inbox'
  | WebSocketDisconnect :: _ => disconnect websocket
  | Raised e :: _ => raise e
  end.

Definition websocket_endpoint (websocket : WebSocket) (inbox : list Received)
  : Py World unit :=
  (connect websocket ;;; receive_loop websocket inbox)%py.

(** ** More views *)

(** No registered connection has a closed transport. *)
Definition all_open (w : World) : Prop :=
  forall c, In c (active_connections w) -> ~ In c (closed w).

(** The inventory as [initialize_simulation] makes it and nothing has
    touched it: hosts with all of their capacity and no VM, VMs at or above
    the floors of their requirements and not placed. *)
Definition host_untouched (h : HostDict.t) : Prop :=
  HostDict.available_cpu h = HostDict.total_cpu h /\
  HostDict.available_ram h = HostDict.total_ram h /\
  HostDict.available_storage h = HostDict.total_storage h /\
  HostDict.available_bandwidth h = HostDict.total_bandwidth h /\
  HostDict.zones h
  = {| hz_high_resource_slow := empty_host_zone;
       hz_medium := empty_host_zone;
       hz_fast_small := empty_host_zone |}.

Definition vm_untouched (v : VmDict.t) : Prop :=
  VmDict.current_zone v = None /\ VmDict.host_id v = None /\
  VmDict.migration_count v = 0%Z /\
  (10 <= VmDict.cpu_req v)%Q /\ (1000 <= VmDict.ram_req v)%Q /\
  (10000 <= VmDict.storage_req v)%Q /\ (10 <= VmDict.bandwidth_req v)%Q.

(** The zones as every scenario bounds them: a count that is not negative
    and a utilization of at most 100. *)
Definition zone_entry_capped (z : ZoneEntry) : Prop :=
  (0 <= vm_count z)%Z /\ (utilization z <= 100)%Q.

Definition zone_status_capped (z : ZoneStatus) : Prop :=
  zone_entry_capped (high_resource_slow z) /\
  zone_entry_capped (medium z) /\
  zone_entry_capped (fast_small z).

Section MoreViews.

Variable np_sin : Q -> Q.

(** Every [Ws_connect] of the events is of a websocket that is not
    registered when it connects, as the websocket of a new connection is. *)
Fixpoint connects_fresh (evs : list Event) (w : World) : bool :=
  match evs with
  | [] => true
  | ev :: evs' =>
      match ev with
      | Ws_connect c => negb (py_in c (active_connections w))
      | _ => true
      end && connects_fresh evs' (exec np_sin ev w)
  end.

(** The count that task [t] leaves after the steps [steps], from [count]. *)
Definition count_after (t : Task) (envs : nat -> Env) (steps : list nat)
  (count : Z) : Z :=
  fold_left
    (fun c step =>
       vm_migration_count (task_metrics np_sin t step (rng (envs step)) c))
    steps count.

End MoreViews.

(** The tasks that are not finished. *)
Definition live_tasks (w : World) : list Task := filter alive (tasks w).

(** Two subscribers with open transports, scenario 2 started. *)
Definition two_open : World :=
  run sin_zero [Ws_connect 1%nat; Ws_connect 2%nat; Post_scenario 2]
      initial_world.

(** ** Tactics for the bounds *)

(** Brings the two cases of every [min] and [max] of the goal into the
    context, for [lra]. *)
Ltac clamps :=
  unfold py_min, py_max in *;
  repeat match goal with
  | |- context [Qmin ?a ?b] =>
      lazymatch goal with
      | _ : _ \/ (Qle b a /\ Qeq (Qmin a b) b) |- _ => fail
      | _ => pose proof (Q.min_spec a b)
      end
  | |- context [Qmax ?a ?b] =>
      lazymatch goal with
      | _ : _ \/ (Qle b a /\ Qeq (Qmax a b) a) |- _ => fail
      | _ => pose proof (Q.max_spec a b)
      end
  end.

(** Names the quotient by 3 of the goal and keeps what it is a third of. *)
Ltac name_third :=
  match goal with
  | |- context [Qdiv ?s (3 # 1)] =>
      assert (Qeq (Qmult (3 # 1) (Qdiv s (3 # 1))) s)
        by (apply Qmult_div_r; discriminate);
      generalize dependent (Qdiv s (3 # 1)); intros ? ?
  end.

(** ** Lists of connections *)

Lemma py_in_In x l : py_in x l = true <-> In x l.
Proof.
  unfold py_in. rewrite existsb_exists. split.
  - intros [y [Hy Heq]]. apply Nat.eqb_eq in Heq. now subst.
  - intros H. exists x. split; [assumption | apply Nat.eqb_refl].
Qed.

Lemma py_in_not_In x l : py_in x l = false <-> ~ In x l.
Proof.
  rewrite <- py_in_In. destruct (py_in x l); split; congruence.
Qed.

Lemma list_remove_None x l : list_remove x l = None <-> ~ In x l.
Proof.
  induction l as [|y l IH]; simpl.
  - split; [intros _ H; exact H | reflexivity].
  - destruct (Nat.eqb_spec y x) as [->|Hne].
    + split; [discriminate | intros H; exfalso; apply H; now left].
    + destruct (list_remove x l) as [r|].
      * split; [discriminate|]. intros H. exfalso.
        destruct IH as [_ IH]. assert (Hn : ~ In x l) by tauto.
        specialize (IH Hn). discriminate.
      * split; [|reflexivity]. intros _ [H|H]; [congruence|].
        destruct IH as [IH _]. now apply IH.
Qed.

Lemma list_remove_app_fresh x pre l :
  ~ In x pre -> list_remove x (pre ++ x :: l) = Some (pre ++ l)%list.
Proof.
  induction pre as [|y pre IH]; simpl; intros Hn.
  - now rewrite Nat.eqb_refl.
  - destruct (Nat.eqb_spec y x) as [->|Hne]; [tauto|].
    rewrite IH by tauto. reflexivity.
Qed.

Lemma list_remove_Some_length x l r :
  list_remove x l = Some r -> List.length l = S (List.length r).
Proof.
  revert r. induction l as [|y l IH]; simpl; intros r H; [discriminate|].
  destruct (Nat.eqb y x).
  - now inversion H.
  - destruct (list_remove x l) as [r'|]; [|discriminate].
    inversion H; subst. simpl. f_equal. now apply IH.
Qed.

Lemma list_remove_Some_count x l r :
  list_remove x l = Some r ->
  forall y, count_occ Nat.eq_dec l y
            = (count_occ Nat.eq_dec r y + if Nat.eqb y x then 1 else 0)%nat.
Proof.
  revert r. induction l as [|z l IH]; simpl; intros r H y; [discriminate|].
  destruct (Nat.eqb_spec z x) as [->|Hzx].
  - inversion H; subst. destruct (Nat.eq_dec x y) as [->|Hxy].
    + rewrite Nat.eqb_refl. lia.
    + destruct (Nat.eqb_spec y x); [congruence | lia].
  - destruct (list_remove x l) as [r'|]; [|discriminate].
    inversion H; subst. simpl. specialize (IH r' eq_refl y).
    destruct (Nat.eq_dec z y); lia.
Qed.

(** ** The registry: [disconnect] and [broadcast] *)

Lemma World_eta w :
  w = {| simulation_state := simulation_state w;
         active_connections := active_connections w; tasks := tasks w;
         closed := closed w; wire := wire w |}.
Proof. now destruct w. Qed.

Lemma disconnect_unfold ws w :
  disconnect ws w =
  if py_in ws (active_connections w)
  then match list_remove ws (active_connections w) with
       | Some l => (inr tt, set_active_connections l w)
       | None => (inl (ValueError "list.remove(x): x not in list"), w)
       end
  else (inr tt, w).
Proof.
  unfold disconnect, bind, get, active_connections_remove, ret.
  now destruct (py_in ws (active_connections w)).
Qed.

Lemma disconnect_returns ws w : fst (disconnect ws w) = inr tt.
Proof.
  rewrite disconnect_unfold.
  destruct (py_in ws (active_connections w)) eqn:Hin; [|reflexivity].
  destruct (list_remove ws (active_connections w)) eqn:Hr; [reflexivity|].
  apply list_remove_None in Hr. apply py_in_In in Hin. contradiction.
Qed.

Lemma for_each_disconnect_returns d :
  forall w, fst (for_each d disconnect w) = inr tt.
Proof.
  induction d as [|c d IH]; intros w; [reflexivity|].
  simpl. unfold bind.
  pose proof (disconnect_returns c w) as Hc.
  destruct (disconnect c w) as [[e|[]] w1]; simpl in Hc; [discriminate|].
  apply IH.
Qed.

(** The removal loop over the failed connections of [l], when the registry
    is [pre ++ l] and nothing of [pre] has failed. *)
Lemma removal_loop (P : WebSocket -> bool) l :
  forall pre w,
    active_connections w = (pre ++ l)%list ->
    (forall x, In x pre -> P x = false) ->
    for_each (filter P l) disconnect w
    = (inr tt,
       set_active_connections (pre ++ filter (fun c => negb (P c)) l)%list w).
Proof.
  induction l as [|c l IH]; intros pre w Hw Hpre; simpl.
  - unfold ret. f_equal. rewrite <- Hw. unfold set_active_connections.
    apply World_eta.
  - destruct (P c) eqn:Hc; simpl.
    + assert (Hfresh : ~ In c pre).
      { intros Hin. apply Hpre in Hin. congruence. }
      unfold bind. rewrite disconnect_unfold, Hw.
      rewrite list_remove_app_fresh by assumption.
      replace (py_in c (pre ++ c :: l)) with true.
      2:{ symmetry. apply py_in_In, in_or_app. right. now left. }
      rewrite (IH pre (set_active_connections (pre ++ l) w));
        [reflexivity | reflexivity | assumption].
    + rewrite (IH (pre ++ [c])%list w).
      * now rewrite <- app_assoc.
      * now rewrite <- app_assoc.
      * intros x Hx. apply in_app_or in Hx.
        destruct Hx as [Hx|[<-|[]]]; [now apply Hpre | assumption].
Qed.

Lemma broadcast_sends_spec message conns :
  forall d w,
    broadcast_sends conns message d w
    = (inr (d ++ filter (fun c => py_in c (closed w)) conns)%list,
       set_wire (wire w ++ map (attempt (closed w) message) conns)%list w).
Proof.
  induction conns as [|c conns IH]; intros d w; simpl.
  - unfold ret, set_wire. rewrite !app_nil_r. f_equal. apply World_eta.
  - unfold bind at 1. unfold try_except, bind, send_text, ret.
    destruct (py_in c (closed w)) eqn:Hc; simpl; rewrite IH; simpl;
      unfold set_wire, attempt; simpl; rewrite Hc, <- !app_assoc;
      reflexivity.
Qed.

(** [broadcast] computes [after_broadcast], and returns normally. *)
Lemma broadcast_spec message w :
  broadcast message w = (inr tt, after_broadcast message w).
Proof.
  unfold broadcast, bind, get.
  destruct (active_connections w) as [|c conns] eqn:Hconns.
  - unfold ret, after_broadcast. rewrite Hconns. simpl.
    rewrite app_nil_r. f_equal. rewrite <- Hconns. apply World_eta.
  - rewrite broadcast_sends_spec. simpl app.
    rewrite (@removal_loop (fun x => py_in x (closed w)) (c :: conns) []).
    + unfold after_broadcast. rewrite Hconns. reflexivity.
    + simpl. now rewrite Hconns.
    + intros x [].
Qed.

(** ** One step of a scenario *)

Lemma publish_spec env w :
  publish env w = (inr tt, after_broadcast (step_payload env w) w).
Proof. unfold publish, bind, get. apply broadcast_spec. Qed.

Lemma scenario_1_step_spec step env w :
  scenario_1_step step env w
  = (inr tt,
     after_broadcast
       (step_payload env
          (written (scenario_1_metrics step (rng env) (migrations w))
                   (scenario_1_zone_status step (rng env)) w))
       (written (scenario_1_metrics step (rng env) (migrations w))
                (scenario_1_zone_status step (rng env)) w)).
Proof.
  unfold scenario_1_step, bind, get, assign, modify.
  rewrite publish_spec. reflexivity.
Qed.

Lemma scenario_2_step_spec step env w :
  scenario_2_step step env w
  = (inr tt,
     after_broadcast
       (step_payload env
          (written (scenario_2_metrics step (rng env) (migrations w))
                   (scenario_2_zone_status step) w))
       (written (scenario_2_metrics step (rng env) (migrations w))
                (scenario_2_zone_status step) w)).
Proof.
  unfold scenario_2_step, bind, get, assign, modify.
  rewrite publish_spec. reflexivity.
Qed.

Section Steps.

Variable np_sin : Q -> Q.

Lemma scenario_3_step_spec step env w :
  scenario_3_step np_sin step env w
  = (inr tt,
     after_broadcast
       (step_payload env
          (written (scenario_3_metrics np_sin step (rng env) (migrations w))
                   (scenario_3_zone_status np_sin step (rng env)) w))
       (written (scenario_3_metrics np_sin step (rng env) (migrations w))
                (scenario_3_zone_status np_sin step (rng env)) w)).
Proof.
  unfold scenario_3_step, bind, get, assign, modify.
  rewrite publish_spec. reflexivity.
Qed.

Lemma resume_alive t env w :
  alive t = true ->
  resume np_sin t env w
  = (inr (advanced t),
     after_broadcast (step_payload env (stepped np_sin t env w))
                     (stepped np_sin t env w)).
Proof.
  intros Ha. unfold resume. rewrite Ha.
  unfold stepped, entered, task_metrics, task_zone_status, scenario_name,
    loop_body, prologue, advanced.
  unfold bind at 1.
  destruct (next_step t =? 0)%nat; destruct (coro t);
    unfold assign, modify, ret, bind;
    rewrite ?scenario_1_step_spec, ?scenario_2_step_spec,
      ?scenario_3_step_spec; reflexivity.
Qed.

Lemma resume_finished t env w :
  alive t = false -> resume np_sin t env w = (inr t, w).
Proof. intros Ha. unfold resume. now rewrite Ha. Qed.

End Steps.

(** ** What the event loop does to the registry and the transport log *)

Lemma list_remove_Some_In x l r :
  list_remove x l = Some r -> forall y, In y r -> In y l.
Proof.
  revert r. induction l as [|z l IH]; simpl; intros r H y Hy; [discriminate|].
  destruct (Nat.eqb z x).
  - inversion H; subst. now right.
  - destruct (list_remove x l) as [r'|]; [|discriminate].
    inversion H; subst. destruct Hy as [Hy|Hy]; [now left|].
    right. now apply (IH r').
Qed.

Lemma replace_nth_same {A} (l : list A) :
  forall i x, nth_error l i = Some x -> replace_nth i x l = l.
Proof.
  induction l as [|y l IH]; intros [|i] x H; simpl in *;
    try discriminate; try reflexivity.
  - now inversion H.
  - f_equal. now apply IH.
Qed.

Lemma replace_nth_length {A} (l : list A) :
  forall i x, List.length (replace_nth i x l) = List.length l.
Proof.
  induction l as [|y l IH]; intros [|i] x; simpl; auto.
Qed.

Lemma nth_error_replace_nth {A} (l : list A) :
  forall i x, (i < List.length l)%nat ->
              nth_error (replace_nth i x l) i = Some x.
Proof.
  induction l as [|y l IH]; intros [|i] x H; simpl in *; try lia;
    try reflexivity.
  apply IH. lia.
Qed.

Lemma sent_since_app w w' ext :
  wire w' = (wire w ++ ext)%list -> sent_since w w' = ext.
Proof.
  intros H. unfold sent_since. rewrite H.
  rewrite skipn_app, skipn_all, Nat.sub_diag. reflexivity.
Qed.

Section Loop.

Variable np_sin : Q -> Q.

Lemma stepped_frame t env w :
  active_connections (stepped np_sin t env w) = active_connections w /\
  tasks (stepped np_sin t env w) = tasks w /\
  closed (stepped np_sin t env w) = closed w /\
  wire (stepped np_sin t env w) = wire w.
Proof.
  unfold stepped, entered, written.
  destruct (next_step t =? 0)%nat; simpl; auto.
Qed.

Lemma wake_alive i t env w :
  nth_error (tasks w) i = Some t ->
  alive t = true ->
  wake np_sin i env w
  = set_tasks (replace_nth i (advanced t) (tasks w))
      (after_broadcast (step_payload env (stepped np_sin t env w))
                       (stepped np_sin t env w)).
Proof.
  intros Hn Ha. unfold wake. rewrite Hn, resume_alive by assumption.
  unfold after_broadcast at 1. cbn [tasks].
  destruct (stepped_frame t env w) as (_ & Ht & _). now rewrite Ht.
Qed.

Lemma wake_idle i env w :
  match nth_error (tasks w) i with
  | Some t => alive t = false
  | None => True
  end ->
  wake np_sin i env w = w.
Proof.
  unfold wake. destruct (nth_error (tasks w) i) as [t|] eqn:Hn; [|reflexivity].
  intros Ha. rewrite resume_finished by assumption.
  rewrite replace_nth_same by assumption.
  unfold set_tasks. symmetry. apply World_eta.
Qed.

Lemma start_scenario_frame scenario_id w :
  active_connections (snd (start_scenario scenario_id w))
  = active_connections w /\
  closed (snd (start_scenario scenario_id w)) = closed w /\
  wire (snd (start_scenario scenario_id w)) = wire w.
Proof.
  unfold start_scenario, bind, get, try_except, assign, modify, raise, ret,
    create_task.
  destruct (running (simulation_state w)); simpl; [auto|].
  destruct (scenario_id =? 1)%Z; simpl; [auto|].
  destruct (scenario_id =? 2)%Z; simpl; [auto|].
  destruct (scenario_id =? 3)%Z; simpl; auto.
Qed.

(** A connection that is not registered and does not connect again stays
    out of the registry, and nothing is sent to it. *)
Lemma exec_keeps_out c ev w :
  ~ In c (active_connections w) ->
  is_connect_of c ev = false ->
  ~ In c (active_connections (exec np_sin ev w)) /\
  exists ext, wire (exec np_sin ev w) = (wire w ++ ext)%list /\
              Forall (fun a => to a <> c) ext.
Proof.
  intros Hout Hev.
  assert (Hsame : forall w', active_connections w' = active_connections w ->
                             wire w' = wire w ->
            ~ In c (active_connections w') /\
            exists ext, wire w' = (wire w ++ ext)%list /\
                        Forall (fun a => to a <> c) ext).
  { intros w' Hc Hw. rewrite Hc, Hw. split; [assumption|].
    exists []. now rewrite app_nil_r. }
  destruct ev as [id| |g|c'|c'|c'|i env]; simpl in *.
  - destruct (start_scenario_frame id w) as (H1 & _ & H2). now apply Hsame.
  - now apply Hsame.
  - now apply Hsame.
  - split.
    + intros Hin. apply in_app_or in Hin. destruct Hin as [Hin|[Heq|[]]].
      * contradiction.
      * subst. now rewrite Nat.eqb_refl in Hev.
    + exists []. now rewrite app_nil_r.
  - rewrite disconnect_unfold.
    destruct (py_in c' (active_connections w)); [|now apply Hsame].
    destruct (list_remove c' (active_connections w)) as [l|] eqn:Hr;
      [|now apply Hsame].
    simpl. split.
    + intros Hin. apply Hout. now apply (list_remove_Some_In _ _ Hr).
    + exists []. now rewrite app_nil_r.
  - now apply Hsame.
  - destruct (nth_error (tasks w) i) as [t|] eqn:Hn.
    + destruct (alive t) eqn:Ha.
      * rewrite (wake_alive _ _ _ Hn Ha).
        unfold set_tasks, after_broadcast.
        cbn [active_connections wire closed].
        destruct (stepped_frame t env w) as (Hc & _ & Hcl & Hw).
        rewrite Hc, Hw. split.
        -- intros Hin. apply filter_In in Hin. tauto.
        -- eexists. split; [reflexivity|].
           apply Forall_forall. intros a Ha'. apply in_map_iff in Ha'.
           destruct Ha' as (x & <- & Hx). simpl. congruence.
      * rewrite wake_idle; [now apply Hsame | now rewrite Hn].
    + rewrite wake_idle; [now apply Hsame | now rewrite Hn].
Qed.

Lemma run_keeps_out c evs :
  forall w,
    ~ In c (active_connections w) ->
    existsb (is_connect_of c) evs = false ->
    ~ In c (active_connections (run np_sin evs w)) /\
    exists ext, wire (run np_sin evs w) = (wire w ++ ext)%list /\
                Forall (fun a => to a <> c) ext.
Proof.
  induction evs as [|ev evs IH]; intros w Hout Hevs.
  - split; [assumption|]. exists []. simpl. now rewrite app_nil_r.
  - simpl in Hevs. apply orb_false_iff in Hevs. destruct Hevs as [Hev Hevs].
    destruct (@exec_keeps_out c ev w Hout Hev) as (Hout1 & ext1 & Hw1 & Hf1).
    destruct (IH _ Hout1 Hevs) as (Hout2 & ext2 & Hw2 & Hf2).
    change (run np_sin (ev :: evs) w) with (run np_sin evs (exec np_sin ev w)).
    split; [assumption|]. exists (ext1 ++ ext2)%list. split.
    + rewrite Hw2, Hw1. now rewrite app_assoc.
    + apply Forall_app. now split.
Qed.

End Loop.

(** ** A broadcast that other tasks interleave with *)

Lemma count_occ_filter_le (f : WebSocket -> bool) l y :
  (count_occ Nat.eq_dec (filter f l) y <= count_occ Nat.eq_dec l y)%nat.
Proof.
  induction l as [|x l IH]; simpl; [lia|].
  destruct (f x); simpl; destruct (Nat.eq_dec x y); lia.
Qed.

Lemma disconnect_count x w y :
  (count_occ Nat.eq_dec (active_connections (snd (disconnect x w))) y
   <= count_occ Nat.eq_dec (active_connections w) y)%nat.
Proof.
  rewrite disconnect_unfold.
  destruct (py_in x (active_connections w)); [|simpl; lia].
  destruct (list_remove x (active_connections w)) as [r|] eqn:Hr;
    [|simpl; lia].
  simpl. rewrite (list_remove_Some_count _ _ Hr y). lia.
Qed.

Lemma disconnect_removes x w :
  (count_occ Nat.eq_dec (active_connections w) x <= 1)%nat ->
  count_occ Nat.eq_dec (active_connections (snd (disconnect x w))) x = 0%nat.
Proof.
  intros Hle. rewrite disconnect_unfold.
  destruct (py_in x (active_connections w)) eqn:Hin.
  - destruct (list_remove x (active_connections w)) as [r|] eqn:Hr.
    + simpl. pose proof (list_remove_Some_count _ _ Hr x) as Hc.
      rewrite Nat.eqb_refl in Hc. lia.
    + apply list_remove_None in Hr. apply py_in_In in Hin. contradiction.
  - simpl. apply count_occ_not_In. now apply py_in_not_In.
Qed.

Lemma for_each_disconnect_count d y :
  forall w,
    (count_occ Nat.eq_dec
       (active_connections (snd (for_each d disconnect w))) y
     <= count_occ Nat.eq_dec (active_connections w) y)%nat.
Proof.
  induction d as [|x d IH]; intros w; [simpl; lia|].
  simpl. unfold bind.
  pose proof (disconnect_returns x w) as Hx.
  pose proof (disconnect_count x w y) as Hc.
  destruct (disconnect x w) as [[e|[]] w1]; simpl in Hx; [discriminate|].
  simpl in Hc. specialize (IH w1). lia.
Qed.

(** The second loop of [broadcast] leaves no entry of a connection of
    [disconnected] that was registered at most once. *)
Lemma removal_loop_removes c d :
  forall w,
    (count_occ Nat.eq_dec (active_connections w) c <= 1)%nat ->
    In c d ->
    ~ In c (active_connections (snd (for_each d disconnect w))).
Proof.
  induction d as [|x d IH]; intros w Hle Hin; [destruct Hin|].
  simpl. unfold bind.
  pose proof (disconnect_returns x w) as Hx.
  pose proof (disconnect_count x w c) as Hc.
  pose proof (disconnect_removes x w) as Hz.
  destruct (disconnect x w) as [[e|[]] w1]; simpl in Hx; [discriminate|].
  simpl in Hc, Hz.
  destruct (Nat.eq_dec x c) as [->|Hne].
  - apply count_occ_not_In with (eq_dec := Nat.eq_dec).
    pose proof (for_each_disconnect_count d c w1) as Hd.
    specialize (Hz Hle). apply Nat.le_0_r.
    apply Nat.le_trans with (1 := Hd). apply Nat.eq_le_incl. exact Hz.
  - apply IH; [apply Nat.le_trans with (1 := Hc); exact Hle|]. destruct Hin as [Heq|Hin]; [contradiction|assumption].
Qed.

Section Interleaving.

Variable np_sin : Q -> Q.

Lemma exec_count c ev w :
  is_connect_of c ev = false ->
  (count_occ Nat.eq_dec (active_connections (exec np_sin ev w)) c
   <= count_occ Nat.eq_dec (active_connections w) c)%nat.
Proof.
  intros Hev.
  assert (Hsame : forall l, l = active_connections w ->
            (count_occ Nat.eq_dec l c
             <= count_occ Nat.eq_dec (active_connections w) c)%nat).
  { intros l ->. apply Nat.le_refl. }
  destruct ev as [id| |g|c'|c'|c'|i env]; simpl in *;
    try (apply Hsame; reflexivity).
  - apply Hsame. now destruct (start_scenario_frame id w) as (H1 & _).
  - rewrite count_occ_app. simpl.
    destruct (Nat.eq_dec c' c) as [->|Hne].
    + now rewrite Nat.eqb_refl in Hev.
    + rewrite Nat.add_0_r. apply Nat.le_refl.
  - apply disconnect_count.
  - destruct (nth_error (tasks w) i) as [t|] eqn:Hn.
    + destruct (alive t) eqn:Ha.
      * rewrite (wake_alive _ _ _ _ Hn Ha).
        unfold set_tasks, after_broadcast. cbn [active_connections].
        destruct (stepped_frame np_sin t env w) as (-> & _).
        apply count_occ_filter_le.
      * rewrite wake_idle; [now apply Hsame | now rewrite Hn].
    + rewrite wake_idle; [now apply Hsame | now rewrite Hn].
Qed.

Lemma run_count c evs :
  forall w,
    existsb (is_connect_of c) evs = false ->
    (count_occ Nat.eq_dec (active_connections (run np_sin evs w)) c
     <= count_occ Nat.eq_dec (active_connections w) c)%nat.
Proof.
  induction evs as [|ev evs IH]; intros w Hevs; [apply Nat.le_refl|].
  simpl in Hevs. apply orb_false_iff in Hevs. destruct Hevs as [Hev Hevs].
  change (run np_sin (ev :: evs) w) with (run np_sin evs (exec np_sin ev w)).
  apply Nat.le_trans with (2 := @exec_count c ev w Hev).
  apply IH. exact Hevs.
Qed.

(** A turn of the first loop: one send, the registry untouched. *)
Lemma pass_step_send p w c :
  nth_error (active_connections w) (pass_index p) = Some c ->
  pass_step p w
  = (inr (inl {| pass_message := pass_message p;
                 pass_index := S (pass_index p);
                 pass_disconnected :=
                   (pass_disconnected p
                    ++ if py_in c (closed w) then [c] else [])%list |}),
     log_send (attempt (closed w) (pass_message p) c) w).
Proof.
  intros Hn. unfold pass_step, bind, get. rewrite Hn.
  unfold try_except, bind, send_text, ret, attempt.
  destruct (py_in c (closed w)); simpl; [reflexivity|].
  now rewrite app_nil_r.
Qed.

(** The iterator exhausted: the second loop, and the return. *)
Lemma pass_step_return p w :
  nth_error (active_connections w) (pass_index p) = None ->
  pass_step p w
  = (inr (inr (pass_disconnected p)),
     snd (for_each (pass_disconnected p) disconnect w)).
Proof.
  intros Hn. unfold pass_step, bind, get. rewrite Hn.
  pose proof (for_each_disconnect_returns (pass_disconnected p) w) as Hr.
  destruct (for_each (pass_disconnected p) disconnect w) as [[e|[]] w1];
    simpl in Hr; [discriminate | reflexivity].
Qed.

Lemma pass_finish_spec p w :
  pass_finish p w
  = (inr (pass_disconnected p
          ++ filter (fun c => py_in c (closed w))
                    (skipn (pass_index p) (active_connections w)))%list,
     snd (for_each
            (pass_disconnected p
             ++ filter (fun c => py_in c (closed w))
                       (skipn (pass_index p) (active_connections w)))%list
            disconnect
            (set_wire
               (wire w ++ map (attempt (closed w) (pass_message p))
                              (skipn (pass_index p) (active_connections w)))
               w))).
Proof.
  unfold pass_finish, bind at 1, get. unfold bind at 1.
  rewrite broadcast_sends_spec. unfold bind, ret.
  match goal with
  | |- context [for_each ?d disconnect ?w1] =>
      pose proof (for_each_disconnect_returns d w1) as Hr;
      destruct (for_each d disconnect w1) as [[e|[]] w2]
  end; simpl in Hr; [discriminate | reflexivity].
Qed.

(** Whatever the other tasks do between the sends, [broadcast] returns
    normally, and a connection whose send failed, that was registered at
    most once and does not connect again during the pass, is out of the
    registry when it returns. *)
Lemma broadcast_from_safe sched :
  forall p w,
    exists failed w',
      broadcast_from np_sin sched p w = (inr failed, w') /\
      incl (pass_disconnected p) failed /\
      forall c,
        (count_occ Nat.eq_dec (active_connections w) c <= 1)%nat ->
        existsb (is_connect_of c) (List.concat sched) = false ->
        In c failed ->
        ~ In c (active_connections w').
Proof.
  induction sched as [|evs sched IH]; intros p w.
  - simpl. rewrite pass_finish_spec. eexists. eexists.
    split; [reflexivity|]. split; [apply incl_appl, incl_refl|].
    intros c Hle _ Hin. now apply removal_loop_removes.
  - simpl. unfold bind at 1.
    destruct (nth_error (active_connections w) (pass_index p)) as [x|] eqn:Hn.
    + rewrite (pass_step_send _ _ Hn). unfold bind, modify.
      match goal with
      | |- context [broadcast_from np_sin sched ?p1 ?w1] =>
          destruct (IH p1 w1) as (failed & w' & Heq & Hincl & Hout)
      end.
      exists failed, w'. split; [exact Heq|]. split.
      * intros y Hy. apply Hincl. simpl. apply in_or_app. now left.
      * intros c Hle Hevs Hin. simpl in Hevs. rewrite existsb_app in Hevs.
        apply orb_false_iff in Hevs. destruct Hevs as [Hev1 Hev2].
        apply Hout; [|assumption|assumption].
        apply Nat.le_trans with (2 := Hle).
        apply (@run_count c evs
                 (log_send (attempt (closed w) (pass_message p) x) w) Hev1).
    + rewrite (pass_step_return _ _ Hn). unfold ret.
      eexists. eexists. split; [reflexivity|]. split; [apply incl_refl|].
      intros c Hle _ Hin. now apply removal_loop_removes.
Qed.

Lemma broadcast_interleaved_safe message sched w :
  exists failed w',
    broadcast_interleaved np_sin message sched w = (inr failed, w') /\
    forall c,
      (count_occ Nat.eq_dec (active_connections w) c <= 1)%nat ->
      existsb (is_connect_of c) (List.concat sched) = false ->
      In c failed ->
      ~ In c (active_connections w').
Proof.
  unfold broadcast_interleaved, bind, get.
  destruct (active_connections w) as [|x conns] eqn:Hconns.
  - exists [], w. split; [reflexivity|]. intros c _ _ [].
  - destruct (broadcast_from_safe sched
                {| pass_message := message; pass_index := 0;
                   pass_disconnected := [] |} w)
      as (failed & w' & Heq & _ & Hout).
    exists failed, w'. split; [exact Heq|].
    intros c Hle. apply Hout. now rewrite Hconns.
Qed.

(** Without other tasks in between, the pass is [broadcast]. *)
Lemma broadcast_interleaved_nil message w :
  broadcast_interleaved np_sin message [] w
  = (inr (filter (fun c => py_in c (closed w)) (active_connections w)),
     after_broadcast message w).
Proof.
  unfold broadcast_interleaved, bind, get.
  destruct (active_connections w) as [|c conns] eqn:Hconns.
  - unfold ret, after_broadcast. rewrite Hconns. simpl.
    rewrite app_nil_r. do 2 f_equal. rewrite <- Hconns. apply World_eta.
  - simpl broadcast_from. rewrite pass_finish_spec.
    cbn [pass_index pass_disconnected pass_message skipn app].
    rewrite Hconns. f_equal.
    rewrite (@removal_loop (fun x => py_in x (closed w)) (c :: conns) []).
    + unfold after_broadcast. rewrite Hconns. reflexivity.
    + simpl. now rewrite Hconns.
    + intros x [].
Qed.

End Interleaving.

(** ** The registry: the claims *)

Section RegistryClaims.

Variable np_sin : Q -> Q.

(** C10.  [disconnect] never raises.  On a websocket that is not registered
    it leaves the world as it found it; on a registered one it removes one
    entry, that websocket's: the registry is one shorter, the websocket
    occurs once less and every other websocket as often as before.  A second
    [disconnect] of the same websocket returns normally; so does the removal
    loop of [broadcast] over any list of connections in any world; and so
    does a whole [broadcast] during whose awaits other tasks run, whatever
    they do, the websocket handler disconnecting a connection whose send
    has failed in that pass included. *)
Theorem disconnect_is_safe websocket w :
  fst (disconnect websocket w) = inr tt /\
  (~ In websocket (active_connections w) ->
   snd (disconnect websocket w) = w) /\
  (In websocket (active_connections w) ->
   exists l,
     snd (disconnect websocket w) = set_active_connections l w /\
     List.length (active_connections w) = S (List.length l) /\
     forall y, count_occ Nat.eq_dec (active_connections w) y
               = (count_occ Nat.eq_dec l y
                  + if Nat.eqb y websocket then 1 else 0)%nat) /\
  fst ((disconnect websocket ;;; disconnect websocket)%py w) = inr tt /\
  (forall disconnected w0,
     fst (for_each disconnected disconnect w0) = inr tt) /\
  (forall message sched,
     exists failed,
       fst (broadcast_interleaved np_sin message sched w) = inr failed).
Proof.
  split; [apply disconnect_returns|].
  split; [|split; [|split; [|split]]].
  - intros Hn. rewrite disconnect_unfold.
    apply py_in_not_In in Hn. now rewrite Hn.
  - intros Hin. rewrite disconnect_unfold.
    pose proof Hin as Hpy. apply py_in_In in Hpy. rewrite Hpy.
    destruct (list_remove websocket (active_connections w)) as [l|] eqn:Hr.
    + exists l. split; [reflexivity|]. split.
      * now apply list_remove_Some_length with (x := websocket).
      * now apply list_remove_Some_count.
    + apply list_remove_None in Hr. contradiction.
  - unfold bind. pose proof (disconnect_returns websocket w) as H1.
    destruct (disconnect websocket w) as [[e|[]] w1]; simpl in H1;
      [discriminate | apply disconnect_returns].
  - intros d w0. apply for_each_disconnect_returns.
  - intros message sched.
    destruct (broadcast_interleaved_safe np_sin message sched w)
      as (failed & w' & Heq & _).
    exists failed. now rewrite Heq.
Qed.

End RegistryClaims.

(** C3.  The first loop of [broadcast] iterates the registry itself, and
    the pass awaits at every send.  Subscribers 1, 2 and 3 are registered
    and the transport of 2 is closed.  The send to 1 succeeds; the send to 2
    fails, and while the pass awaits, the handler of 2 disconnects it.  The
    iterator, at index 2, then finds a registry of two entries and stops:
    [broadcast] returns normally with 2 out of the registry, and the
    delivery to subscriber 3, whose transport is open and which stays
    registered, has not been attempted. *)
Theorem broadcast_skips_a_subscriber_after_a_failure :
  active_connections three_subscribers = [1; 2; 3]%nat /\
  closed three_subscribers = [2%nat] /\
  fst (broadcast_interleaved sin_zero hello [[]; [Ws_disconnect 2%nat]]
         three_subscribers)
  = inr [2%nat] /\
  map (fun a => (to a, delivered a))
      (sent_since three_subscribers
         (snd (broadcast_interleaved sin_zero hello
                 [[]; [Ws_disconnect 2%nat]] three_subscribers)))
  = [(1%nat, true); (2%nat, false)] /\
  active_connections
    (snd (broadcast_interleaved sin_zero hello [[]; [Ws_disconnect 2%nat]]
            three_subscribers))
  = [1; 3]%nat.
Proof.
  repeat split; vm_compute; reflexivity.
Qed.

Lemma disconnect_is_safe_witness :
  In 2%nat (active_connections three_subscribers) /\
  List.length
    (active_connections (snd (disconnect 2%nat three_subscribers))) = 2%nat /\
  exists failed,
    fst (broadcast_interleaved sin_zero hello [[]; [Ws_disconnect 2%nat]]
           three_subscribers) = inr failed.
Proof.
  assert (Hin : In 2%nat (active_connections three_subscribers))
    by (simpl; auto).
  split; [exact Hin|].
  destruct (disconnect_is_safe sin_zero 2%nat three_subscribers)
    as (_ & _ & Hreg & _ & _ & Hpass).
  destruct (Hreg Hin) as (l & Heq & Hlen & _). split.
  - rewrite Heq. simpl in Hlen. simpl. now inversion Hlen.
  - apply Hpass.
Defined.

(** The double removal: the send to subscriber 2 fails, its handler
    disconnects it while the pass awaits, and the second loop finds it
    gone. *)
Example double_removal_returns :
  broadcast_interleaved sin_zero hello [[]; [Ws_disconnect 2%nat]]
    three_subscribers
  = (inr [2%nat],
     snd (broadcast_interleaved sin_zero hello [[]; [Ws_disconnect 2%nat]]
            three_subscribers)) /\
  active_connections
    (snd (broadcast_interleaved sin_zero hello [[]; [Ws_disconnect 2%nat]]
            three_subscribers))
  = [1; 3]%nat.
Proof. split; vm_compute; reflexivity. Qed.

(** ** The run controller: the claims *)

(** C2.  With the simulation not running, a scenario id other than 1, 2
    and 3 makes [start_scenario] raise the 400 "Invalid scenario ID" inside
    its own [try], where [except Exception] catches it and raises a 500 in
    its place: the answer is a 500 whose detail is the text of the 400.
    [running] is false afterwards and no task has been made. *)
Theorem invalid_scenario_id_answers_500 scenario_id w :
  running (simulation_state w) = false ->
  scenario_id <> 1%Z -> scenario_id <> 2%Z -> scenario_id <> 3%Z ->
  fst (start_scenario scenario_id w)
  = inl (HTTPException 500
           (StrOf (HTTPException 400 (Lit "Invalid scenario ID")))) /\
  http_status (fst (start_scenario scenario_id w)) = 500%Z /\
  running (simulation_state (snd (start_scenario scenario_id w))) = false /\
  tasks (snd (start_scenario scenario_id w)) = tasks w.
Proof.
  intros Hrun H1 H2 H3.
  apply Z.eqb_neq in H1, H2, H3.
  unfold start_scenario, bind, get, try_except, assign, modify, raise, ret.
  rewrite Hrun. simpl. rewrite H1, H2, H3. simpl. auto.
Qed.

Lemma invalid_scenario_id_answers_500_witness :
  running (simulation_state initial_world) = false /\
  http_status (fst (start_scenario 4 initial_world)) = 500%Z /\
  running (simulation_state (snd (start_scenario 4 initial_world))) = false.
Proof.
  split; [reflexivity|].
  destruct (@invalid_scenario_id_answers_500 4%Z initial_world)
    as (_ & Hs & Hr & _);
    [reflexivity | discriminate | discriminate | discriminate |].
  split; assumption.
Defined.

(** A valid start: the task it makes and the world it leaves. *)
Lemma start_scenario_valid scenario_id w :
  running (simulation_state w) = false ->
  In scenario_id [1; 2; 3]%Z ->
  exists c,
    start_scenario scenario_id w
    = (inr {| message := "Started scenario " ++ str_of_Z scenario_id;
              status := "success" |},
       set_tasks (tasks w ++ [{| coro := c; next_step := 0 |}])%list
         (set_simulation_state (set_running true) w)).
Proof.
  unfold start_scenario, bind, get, try_except, assign, modify, raise, ret,
    create_task.
  intros Hrun Hid. rewrite Hrun. simpl in Hid.
  destruct Hid as [<-|[<-|[<-|[]]]]; simpl; eexists; reflexivity.
Qed.

(** C4.  Started with a valid id while not running, [start_scenario]
    answers 200, sets [running] and appends one task, at its first step, to
    the tasks of the loop; nothing else changes.  Started while running, with
    any id, it answers 400 "Simulation already running" and leaves the world
    as it was. *)
Theorem start_scenario_guard scenario_id w :
  (running (simulation_state w) = false ->
   In scenario_id [1; 2; 3]%Z ->
   exists c,
     start_scenario scenario_id w
     = (inr {| message := "Started scenario " ++ str_of_Z scenario_id;
               status := "success" |},
        set_tasks (tasks w ++ [{| coro := c; next_step := 0 |}])%list
          (set_simulation_state (set_running true) w)) /\
     http_status (fst (start_scenario scenario_id w)) = 200%Z /\
     running (simulation_state (snd (start_scenario scenario_id w))) = true /\
     List.length (tasks (snd (start_scenario scenario_id w)))
     = S (List.length (tasks w)) /\
     alive {| coro := c; next_step := 0 |} = true) /\
  (running (simulation_state w) = true ->
   start_scenario scenario_id w
   = (inl (HTTPException 400 (Lit "Simulation already running")), w) /\
   http_status (fst (start_scenario scenario_id w)) = 400%Z).
Proof.
  split.
  - intros Hrun Hid.
    destruct (@start_scenario_valid scenario_id w Hrun Hid) as (c & Heq).
    exists c. rewrite Heq. cbn [fst snd http_status].
    split; [reflexivity|]. split; [reflexivity|]. split; [reflexivity|].
    split.
    + cbn [set_tasks tasks]. rewrite length_app. simpl. lia.
    + now destruct c.
  - intros Hrun.
    unfold start_scenario, bind, get, try_except, assign, modify, raise, ret.
    rewrite Hrun. simpl. auto.
Qed.

Lemma start_scenario_guard_witness :
  http_status (fst (start_scenario 2 initial_world)) = 200%Z /\
  http_status
    (fst (start_scenario 3 (snd (start_scenario 2 initial_world)))) = 400%Z /\
  snd (start_scenario 3 (snd (start_scenario 2 initial_world)))
  = snd (start_scenario 2 initial_world).
Proof.
  destruct (start_scenario_guard 2 initial_world) as [Hidle _].
  destruct Hidle as (c & _ & Hs & Hr & _);
    [reflexivity | simpl; auto |].
  destruct (start_scenario_guard 3 (snd (start_scenario 2 initial_world)))
    as [_ Hbusy].
  destruct (Hbusy Hr) as (Heq & Hs').
  split; [assumption|]. split; [assumption|].
  now rewrite Heq.
Defined.

(** C8.  [reset_simulation] answers 200 from every world.  Afterwards the
    four percentage metrics and the migration count are 0, every zone has
    no VM and utilization 0, [running] is false, the scenario is "idle", and
    the inventory is the one [initialize_simulation] makes, whatever it was
    before: 5 hosts with all of their capacity available and 15 VMs that are
    not placed. *)
Theorem reset_simulation_spec g w :
  fst (reset_simulation g w)
  = inr {| message := "Simulation reset"; status := "success" |} /\
  http_status (fst (reset_simulation g w)) = 200%Z /\
  metrics (simulation_state (snd (reset_simulation g w))) = zero_metrics /\
  zone_status (simulation_state (snd (reset_simulation g w)))
  = zero_zone_status /\
  running (simulation_state (snd (reset_simulation g w))) = false /\
  scenario (simulation_state (snd (reset_simulation g w))) = "idle" /\
  hosts (simulation_state (snd (reset_simulation g w))) = make_hosts /\
  vms (simulation_state (snd (reset_simulation g w))) = make_vms g /\
  List.length (hosts (simulation_state (snd (reset_simulation g w)))) = 5%nat /\
  List.length (vms (simulation_state (snd (reset_simulation g w)))) = 15%nat /\
  Forall (fun h => available_cpu h = total_cpu h /\
                   available_ram h = total_ram h /\
                   available_storage h = total_storage h /\
                   available_bandwidth h = total_bandwidth h)
         (hosts (simulation_state (snd (reset_simulation g w)))) /\
  Forall (fun v => current_zone v = None /\ vm_host_id v = None /\
                   migration_count v = 0%Z)
         (vms (simulation_state (snd (reset_simulation g w)))).
Proof.
  unfold reset_simulation, initialize_simulation, bind, assign, modify, ret.
  cbn [fst snd simulation_state set_simulation_state set_running set_scenario
       set_metrics set_zone_status set_hosts set_vms metrics zone_status
       running scenario hosts vms http_status].
  repeat (split; [reflexivity|]).
  split.
  - unfold make_hosts. apply Forall_forall. intros h Hh.
    apply in_map_iff in Hh. destruct Hh as (i & <- & _). simpl. auto.
  - unfold make_vms. apply Forall_forall. intros v Hv.
    apply in_map_iff in Hv. destruct Hv as (i & <- & _). simpl. auto.
Qed.

(** ** Bounds of the scenario formulas *)

Local Open Scope Q_scope.

Lemma qstep_nonneg s : 0 <= qstep s.
Proof.
  unfold qstep. change 0 with (inject_Z 0). rewrite <- Zle_Qle. lia.
Qed.

Lemma qstep_below s : (s <? 10)%nat = true -> qstep s <= 9.
Proof.
  intros H. apply Nat.ltb_lt in H. unfold qstep.
  change 9 with (inject_Z 9). rewrite <- Zle_Qle. lia.
Qed.

Lemma qstep_above s : (s <? 10)%nat = false -> 10 <= qstep s.
Proof.
  intros H. apply Nat.ltb_ge in H. unfold qstep.
  change 10 with (inject_Z 10). rewrite <- Zle_Qle. lia.
Qed.

Lemma randint_range g k lo hi :
  (lo < hi)%Z -> (lo <= randint g k lo hi < hi)%Z.
Proof.
  intros H. unfold randint.
  pose proof (Z.mod_pos_bound (entropy g k) (hi - lo)). lia.
Qed.

Lemma scenario_1_metrics_percent step g count :
  percent_metrics (scenario_1_metrics step g count).
Proof.
  unfold percent_metrics, percent, scenario_1_metrics, scenario_1_cpu_util.
  simpl. clamps. lra.
Qed.

Lemma scenario_2_metrics_percent step g count :
  percent_metrics (scenario_2_metrics step g count).
Proof.
  unfold percent_metrics, percent, scenario_2_metrics. simpl.
  unfold scenario_2_high_zone_load, scenario_2_medium_zone_load,
    scenario_2_fast_zone_load.
  pose proof (qstep_nonneg step).
  destruct (step <? 10)%nat eqn:Hs.
  - apply qstep_below in Hs. name_third. repeat split; lra.
  - apply qstep_above in Hs. clamps. name_third. repeat split; lra.
Qed.

Lemma scenario_2_zone_status_ok step :
  zone_status_ok (scenario_2_zone_status step).
Proof.
  unfold zone_status_ok, zone_entry_ok, percent, scenario_2_zone_status.
  simpl.
  unfold scenario_2_high_zone_load, scenario_2_medium_zone_load,
    scenario_2_fast_zone_load.
  pose proof (qstep_nonneg step).
  destruct (step <? 10)%nat eqn:Hs;
    [apply qstep_below in Hs | apply qstep_above in Hs];
    clamps; repeat split; try lia; try lra.
Qed.

(** Scenario 1 bounds the zone utilization from above only. *)
Lemma scenario_1_zone_status_upper step g :
  (0 <= vm_count (high_resource_slow (scenario_1_zone_status step g)))%Z /\
  (0 <= vm_count (medium (scenario_1_zone_status step g)))%Z /\
  (0 <= vm_count (fast_small (scenario_1_zone_status step g)))%Z /\
  utilization (high_resource_slow (scenario_1_zone_status step g)) <= 100 /\
  utilization (medium (scenario_1_zone_status step g)) <= 100 /\
  utilization (fast_small (scenario_1_zone_status step g)) <= 100.
Proof.
  unfold scenario_1_zone_status. simpl. clamps.
  repeat split; try lia; try lra.
Qed.

Section Bounds.

Variable np_sin : Q -> Q.

Lemma scenario_3_metrics_percent step g count :
  percent_metrics (scenario_3_metrics np_sin step g count).
Proof.
  unfold percent_metrics, percent, scenario_3_metrics. simpl.
  clamps. repeat split; lra.
Qed.

Lemma scenario_3_zone_status_ok step g :
  zone_status_ok (scenario_3_zone_status np_sin step g).
Proof.
  unfold zone_status_ok, zone_entry_ok, percent, scenario_3_zone_status.
  simpl. clamps; repeat split; try lia; try lra.
Qed.

Lemma task_metrics_percent t step g count :
  percent_metrics (task_metrics np_sin t step g count).
Proof.
  unfold task_metrics. destruct (coro t).
  - apply scenario_1_metrics_percent.
  - apply scenario_2_metrics_percent.
  - apply scenario_3_metrics_percent.
Qed.

Lemma task_metrics_count t step g count :
  (count <= vm_migration_count (task_metrics np_sin t step g count))%Z.
Proof.
  unfold task_metrics, scenario_1_metrics, scenario_2_metrics,
    scenario_3_metrics.
  destruct (coro t); cbn [vm_migration_count].
  - destruct (Qltb 80 (scenario_1_cpu_util step g)
              && Qltb (random g 0) (3 # 10)); lia.
  - pose proof (@randint_range g 0%nat 1%Z 4%Z eq_refl).
    destruct ((8 <=? step)%nat && (step <=? 15)%nat); lia.
  - destruct (Z.of_nat step mod 4 =? 0)%Z; lia.
Qed.

(** The snapshot a live task writes. *)
Lemma stepped_state t env w :
  metrics (simulation_state (stepped np_sin t env w))
  = task_metrics np_sin t (next_step t) (rng env) (migrations w) /\
  zone_status (simulation_state (stepped np_sin t env w))
  = task_zone_status np_sin t (next_step t) (rng env) /\
  running (simulation_state (stepped np_sin t env w))
  = running (simulation_state w) /\
  vms (simulation_state (stepped np_sin t env w)) = vms (simulation_state w) /\
  hosts (simulation_state (stepped np_sin t env w))
  = hosts (simulation_state w).
Proof.
  unfold stepped, entered, written.
  destruct (next_step t =? 0)%nat; simpl; auto.
Qed.

End Bounds.

(** ** The scenario steppers: the claims *)

Section ScenarioClaims.

Variable np_sin : Q -> Q.

Lemma resume_sent t env w :
  alive t = true ->
  sent_since w (snd (resume np_sin t env w))
  = map (attempt (closed w) (step_payload env (snd (resume np_sin t env w))))
        (active_connections w).
Proof.
  intros Ha. rewrite resume_alive by assumption. cbn [snd].
  destruct (stepped_frame np_sin t env w) as (Hc & _ & Hcl & Hw).
  apply sent_since_app. unfold after_broadcast at 1. cbn [wire].
  now rewrite Hc, Hcl, Hw.
Qed.

(** C5.  Whatever the scenario, the step index and the values the random
    generator returns, a live stepper that is resumed completes its step,
    the metrics it has written have their four percentage fields within
    [[0, 100]], and the event it sends, once to every registered connection,
    carries those metrics. *)
Theorem broadcast_metrics_are_percentages t env w :
  alive t = true ->
  fst (resume np_sin t env w) = inr (advanced t) /\
  percent_metrics (metrics (simulation_state (snd (resume np_sin t env w)))) /\
  sent_since w (snd (resume np_sin t env w))
  = map (attempt (closed w) (step_payload env (snd (resume np_sin t env w))))
        (active_connections w) /\
  Forall (fun a => percent_metrics (data (msg a)))
         (sent_since w (snd (resume np_sin t env w))).
Proof.
  intros Ha.
  assert (Hm : percent_metrics
                 (metrics (simulation_state (snd (resume np_sin t env w))))).
  { rewrite resume_alive by assumption. cbn [snd].
    unfold after_broadcast. cbn [simulation_state].
    destruct (stepped_state np_sin t env w) as (-> & _).
    apply task_metrics_percent. }
  split; [now rewrite resume_alive|].
  split; [assumption|].
  split; [now apply resume_sent|].
  rewrite resume_sent by assumption.
  apply Forall_forall. intros a Hin. apply in_map_iff in Hin.
  destruct Hin as (c & <- & _). exact Hm.
Qed.

Lemma start_scenario_state scenario_id w :
  metrics (simulation_state (snd (start_scenario scenario_id w)))
  = metrics (simulation_state w) /\
  vms (simulation_state (snd (start_scenario scenario_id w)))
  = vms (simulation_state w) /\
  hosts (simulation_state (snd (start_scenario scenario_id w)))
  = hosts (simulation_state w).
Proof.
  unfold start_scenario, bind, get, try_except, assign, modify, raise, ret,
    create_task.
  destruct (running (simulation_state w)); simpl; [auto|].
  destruct (scenario_id =? 1)%Z; simpl; [auto|].
  destruct (scenario_id =? 2)%Z; simpl; [auto|].
  destruct (scenario_id =? 3)%Z; simpl; auto.
Qed.

Lemma wake_migrations i env w :
  (migrations w <= migrations (wake np_sin i env w))%Z.
Proof.
  destruct (nth_error (tasks w) i) as [t|] eqn:Hn.
  - destruct (alive t) eqn:Ha.
    + rewrite (wake_alive _ _ _ _ Hn Ha). unfold migrations at 2.
      unfold set_tasks, after_broadcast. cbn [simulation_state].
      destruct (stepped_state np_sin t env w) as (-> & _).
      apply task_metrics_count.
    + rewrite wake_idle; [lia | now rewrite Hn].
  - rewrite wake_idle; [lia | now rewrite Hn].
Qed.

Lemma exec_migrations ev w :
  is_reset ev = false ->
  (migrations w <= migrations (exec np_sin ev w))%Z.
Proof.
  destruct ev as [id| |g|c|c|c|i env]; simpl; intros Hr;
    try discriminate; try (unfold migrations; simpl; lia).
  - unfold migrations.
    destruct (start_scenario_state id w) as (-> & _). lia.
  - rewrite disconnect_unfold. unfold migrations.
    destruct (py_in c (active_connections w)); [|simpl; lia].
    destruct (list_remove c (active_connections w)); simpl; lia.
  - apply wake_migrations.
Qed.

Lemma run_migrations evs :
  forall w, existsb is_reset evs = false ->
            (migrations w <= migrations (run np_sin evs w))%Z.
Proof.
  induction evs as [|ev evs IH]; intros w Hr; [simpl; lia|].
  simpl in Hr. apply orb_false_iff in Hr. destruct Hr as [Hev Hevs].
  change (run np_sin (ev :: evs) w) with (run np_sin evs (exec np_sin ev w)).
  pose proof (exec_migrations ev w Hev).
  specialize (IH (exec np_sin ev w) Hevs). lia.
Qed.

Lemma run_migrations_nonneg evs :
  forall w, (0 <= migrations w)%Z ->
            (0 <= migrations (run np_sin evs w))%Z.
Proof.
  induction evs as [|ev evs IH]; intros w Hw; [exact Hw|].
  change (run np_sin (ev :: evs) w) with (run np_sin evs (exec np_sin ev w)).
  apply IH. destruct (is_reset ev) eqn:Hr.
  - destruct ev; simpl in Hr; try congruence.
    unfold migrations. simpl. lia.
  - pose proof (exec_migrations ev w Hr). lia.
Qed.

(** C7, as the code has it.  The migration count is a non-negative integer
    in every world the process reaches.  A live stepper that is resumed
    completes its step and writes a count that is at least the one it read,
    whatever the scenario, the step and the values of the random generator;
    the event it sends carries the count it wrote.  No event other than a
    reset lowers the count, so between two steps with no reset in between
    it does not decrease.  A reset writes 0 and leaves the tasks as they
    are: the next step of a stepper that is still scheduled counts from 0
    again. *)
Theorem migration_count_never_decreases :
  (forall evs, (0 <= migrations (run np_sin evs initial_world))%Z) /\
  (forall t env w,
     alive t = true ->
     fst (resume np_sin t env w) = inr (advanced t) /\
     (migrations w <= migrations (snd (resume np_sin t env w)))%Z /\
     Forall (fun a => vm_migration_count (data (msg a))
                      = migrations (snd (resume np_sin t env w)))
            (sent_since w (snd (resume np_sin t env w)))) /\
  (forall evs w,
     existsb is_reset evs = false ->
     (migrations w <= migrations (run np_sin evs w))%Z) /\
  (forall g w,
     migrations (exec np_sin (Post_reset g) w) = 0%Z /\
     tasks (exec np_sin (Post_reset g) w) = tasks w).
Proof.
  split; [|split; [|split]]; [| | |intros g w; split; reflexivity].
  - intros evs. apply run_migrations_nonneg. unfold migrations. simpl. lia.
  - intros t env w Ha. split; [now rewrite resume_alive|]. split.
    + rewrite resume_alive by assumption. cbn [snd]. unfold migrations at 2.
      unfold after_broadcast. cbn [simulation_state].
      destruct (stepped_state np_sin t env w) as (-> & _).
      apply task_metrics_count.
    + rewrite resume_sent by assumption.
      apply Forall_forall. intros a Hin. apply in_map_iff in Hin.
      destruct Hin as (c & <- & _). reflexivity.
  - intros evs w. apply run_migrations.
Qed.

End ScenarioClaims.

Lemma broadcast_metrics_are_percentages_witness :
  alive first_task = true /\
  percent_metrics
    (metrics (simulation_state
                (snd (resume sin_zero first_task calm_env just_started)))) /\
  List.length
    (sent_since just_started
       (snd (resume sin_zero first_task calm_env just_started))) = 1%nat.
Proof.
  split; [reflexivity|].
  destruct (@broadcast_metrics_are_percentages sin_zero first_task calm_env
              just_started eq_refl) as (_ & Hm & Hs & _).
  split; [exact Hm|].
  rewrite Hs. reflexivity.
Defined.

Lemma migration_count_never_decreases_witness :
  alive first_task = true /\
  (migrations just_started
   <= migrations (snd (resume sin_zero first_task calm_env just_started)))%Z.
Proof.
  split; [reflexivity|].
  destruct (migration_count_never_decreases sin_zero) as (_ & Hstep & _).
  destruct (Hstep first_task calm_env just_started eq_refl) as (_ & Hle & _).
  exact Hle.
Defined.

(** C7, as the claim has it, fails.  With one subscriber, scenario 3
    is started and does step 0, which counts one migration; a reset follows;
    the stepper, still scheduled, does step 1.  The two consecutive events
    the subscriber is sent carry the counts 1 and 0, and both come from the
    one task, which is then at step 2. *)
Lemma migration_count_falls_across_reset :
  map (fun a => (to a, vm_migration_count (data (msg a))))
      (wire (run sin_zero
               [Ws_connect 7%nat; Post_scenario 3; Resume 0 calm_env;
                Post_reset calm; Resume 0 calm_env]
               initial_world))
  = [(7%nat, 1%Z); (7%nat, 0%Z)] /\
  tasks (run sin_zero
           [Ws_connect 7%nat; Post_scenario 3; Resume 0 calm_env;
            Post_reset calm; Resume 0 calm_env]
           initial_world)
  = [{| coro := Scenario_3_resource_scaling; next_step := 2 |}].
Proof.
  split; vm_compute; reflexivity.
Qed.

(** C6.  Scenario 1 bounds the zone utilization by 100 from above and by
    nothing from below.  At step 0, with a CPU jitter of -12 and a jitter
    of -49 for the first zone, [cpu_util] is 48 and the utilization written
    for [high_resource_slow], and sent to the subscriber, is -1. *)
Theorem scenario_1_zone_utilization_below_zero :
  utilization (high_resource_slow (scenario_1_zone_status 0 cold)) == - (1 # 1)
  /\
  utilization
    (high_resource_slow
       (zone_status
          (simulation_state
             (exec sin_zero (Resume 0 cold_env) just_started))))
  < 0 /\
  map (fun a => Qcompare
                  (utilization
                     (high_resource_slow (payload_zone_status (msg a)))) 0)
      (sent_since just_started
                  (exec sin_zero (Resume 0 cold_env) just_started))
  = [Lt].
Proof.
  split; [vm_compute; reflexivity|].
  split; vm_compute; reflexivity.
Qed.

(** ** Stop and natural completion: the claims *)

Section RunClaims.

Variable np_sin : Q -> Q.

Lemma nth_error_in_range {A} (l : list A) i x :
  nth_error l i = Some x -> (i < List.length l)%nat.
Proof. intros H. apply nth_error_Some. congruence. Qed.

Lemma wake_alive_task i t env w :
  nth_error (tasks w) i = Some t ->
  alive t = true ->
  nth_error (tasks (wake np_sin i env w)) i = Some (advanced t).
Proof.
  intros Hn Ha. rewrite (wake_alive _ _ _ _ Hn Ha). cbn [set_tasks tasks].
  apply nth_error_replace_nth. now apply nth_error_in_range with (x := t).
Qed.

Lemma wake_frame i env w :
  running (simulation_state (wake np_sin i env w))
  = running (simulation_state w) /\
  vms (simulation_state (wake np_sin i env w)) = vms (simulation_state w) /\
  hosts (simulation_state (wake np_sin i env w))
  = hosts (simulation_state w).
Proof.
  destruct (nth_error (tasks w) i) as [t|] eqn:Hn.
  - destruct (alive t) eqn:Ha.
    + rewrite (wake_alive _ _ _ _ Hn Ha).
      unfold set_tasks, after_broadcast. cbn [simulation_state].
      destruct (stepped_state np_sin t env w) as (_ & _ & -> & -> & ->).
      auto.
    + rewrite wake_idle; [auto | now rewrite Hn].
  - rewrite wake_idle; [auto | now rewrite Hn].
Qed.

(** Resuming task [i] [n] times in a row, when it has at least [n] steps
    left. *)
Lemma run_resumptions i envs n :
  forall a w t,
    nth_error (tasks w) i = Some t ->
    (next_step t + n <= step_count t)%nat ->
    nth_error
      (tasks (run np_sin (map (fun k => Resume i (envs k)) (seq a n)) w)) i
    = Some {| coro := coro t; next_step := next_step t + n |} /\
    running (simulation_state
               (run np_sin (map (fun k => Resume i (envs k)) (seq a n)) w))
    = running (simulation_state w) /\
    vms (simulation_state
           (run np_sin (map (fun k => Resume i (envs k)) (seq a n)) w))
    = vms (simulation_state w) /\
    hosts (simulation_state
             (run np_sin (map (fun k => Resume i (envs k)) (seq a n)) w))
    = hosts (simulation_state w).
Proof.
  induction n as [|n IH]; intros a w t Hn Hle.
  - simpl. rewrite Nat.add_0_r. destruct t. auto.
  - assert (Ha : alive t = true).
    { unfold alive. apply Nat.ltb_lt. lia. }
    change (run np_sin (map (fun k => Resume i (envs k)) (seq a (S n))) w)
      with (run np_sin (map (fun k => Resume i (envs k)) (seq (S a) n))
                (wake np_sin i (envs a) w)).
    pose proof (wake_alive_task i (envs a) w Hn Ha) as Hn1.
    destruct (wake_frame i (envs a) w) as (Hr & Hv & Hh).
    destruct (IH (S a) _ (advanced t) Hn1) as (H1 & H2 & H3 & H4).
    { unfold advanced, step_count. simpl. unfold step_count in Hle. lia. }
    rewrite H1, H2, H3, H4, Hr, Hv, Hh.
    unfold advanced. simpl. rewrite Nat.add_succ_r. auto.
Qed.

Lemma wake_scenario i t env w :
  nth_error (tasks w) i = Some t ->
  alive t = true ->
  scenario (simulation_state (wake np_sin i env w))
  = if (next_step t =? 0)%nat then scenario_name t
    else scenario (simulation_state w).
Proof.
  intros Hn Ha. rewrite (wake_alive _ _ _ _ Hn Ha).
  unfold set_tasks, after_broadcast, stepped, entered, written.
  destruct (next_step t =? 0)%nat; reflexivity.
Qed.

(** The scenario name that [n] resumptions in a row leave: the first
    resumption of a task writes it, no later one does. *)
Lemma run_resumptions_scenario i envs n :
  forall a w t,
    nth_error (tasks w) i = Some t ->
    (next_step t + n <= step_count t)%nat ->
    scenario (simulation_state
                (run np_sin (map (fun k => Resume i (envs k)) (seq a n)) w))
    = if (n =? 0)%nat || negb (next_step t =? 0)%nat
      then scenario (simulation_state w)
      else scenario_name t.
Proof.
  induction n as [|n IH]; intros a w t Hn Hle; [reflexivity|].
  assert (Ha : alive t = true).
  { unfold alive. apply Nat.ltb_lt. lia. }
  change (run np_sin (map (fun k => Resume i (envs k)) (seq a (S n))) w)
    with (run np_sin (map (fun k => Resume i (envs k)) (seq (S a) n))
              (wake np_sin i (envs a) w)).
  pose proof (wake_alive_task i (envs a) w Hn Ha) as Hn1.
  rewrite (IH (S a) _ (advanced t) Hn1).
  - rewrite (wake_scenario i (envs a) w Hn Ha).
    unfold advanced. cbn [next_step Nat.eqb negb orb].
    rewrite orb_true_r. now destruct (next_step t =? 0)%nat.
  - unfold advanced, step_count. simpl. unfold step_count in Hle. lia.
Qed.

(** *** The coroutines and their resumptions *)

(** Each scenario coroutine is its prologue followed by its loop. *)
Lemma coroutines_unfold envs :
  scenario_1_high_load envs
  = (prologue {| coro := Scenario_1_high_load; next_step := 0 |} ;;;
     for_each (seq 0 30)
       (fun step =>
          loop_body np_sin {| coro := Scenario_1_high_load; next_step := 0 |}
                    step (envs step)))%py /\
  scenario_2_zone_migration envs
  = (prologue {| coro := Scenario_2_zone_migration; next_step := 0 |} ;;;
     for_each (seq 0 25)
       (fun step =>
          loop_body np_sin
                    {| coro := Scenario_2_zone_migration; next_step := 0 |}
                    step (envs step)))%py /\
  scenario_3_resource_scaling np_sin envs
  = (prologue {| coro := Scenario_3_resource_scaling; next_step := 0 |} ;;;
     for_each (seq 0 20)
       (fun step =>
          loop_body np_sin
                    {| coro := Scenario_3_resource_scaling; next_step := 0 |}
                    step (envs step)))%py.
Proof. repeat split. Qed.

Lemma loop_body_spec t step env w :
  loop_body np_sin t step env w
  = (inr tt,
     after_broadcast
       (step_payload env
          (written (task_metrics np_sin t step (rng env) (migrations w))
                   (task_zone_status np_sin t step (rng env)) w))
       (written (task_metrics np_sin t step (rng env) (migrations w))
                (task_zone_status np_sin t step (rng env)) w)).
Proof.
  unfold loop_body, task_metrics, task_zone_status. destruct (coro t).
  - apply scenario_1_step_spec.
  - apply scenario_2_step_spec.
  - apply scenario_3_step_spec.
Qed.

Lemma set_tasks_same w : set_tasks (tasks w) w = w.
Proof. unfold set_tasks. symmetry. apply World_eta. Qed.

Lemma replace_nth_twice {A} (l : list A) :
  forall i x y, replace_nth i x (replace_nth i y l) = replace_nth i x l.
Proof.
  induction l as [|z l IH]; intros [|i] x y; simpl; try reflexivity.
  now rewrite IH.
Qed.

(** The loop of a coroutine neither reads nor writes the tasks of the event
    loop. *)
Lemma loop_set_tasks t envs steps :
  forall l w,
    for_each steps (fun step => loop_body np_sin t step (envs step))
             (set_tasks l w)
    = (inr tt,
       set_tasks l
         (snd (for_each steps
                 (fun step => loop_body np_sin t step (envs step)) w))).
Proof.
  induction steps as [|step steps IH]; intros l w; [reflexivity|].
  simpl. unfold bind. rewrite !loop_body_spec.
  match goal with
  | |- for_each _ _ ?w1 = (_, set_tasks _ (snd (for_each _ _ ?w2))) =>
      change w1 with (set_tasks l w2)
  end.
  apply IH.
Qed.

Lemma loop_returns t envs steps w :
  fst (for_each steps (fun step => loop_body np_sin t step (envs step)) w)
  = inr tt.
Proof.
  rewrite <- (set_tasks_same w) at 1. now rewrite loop_set_tasks.
Qed.

(** From its second resumption on, resuming task [i] [n] times is running
    [n] turns of its loop; the task's entry in the loop's tasks apart. *)
Lemma loop_is_resumptions i envs c n :
  forall a w,
    nth_error (tasks w) i = Some {| coro := c; next_step := S a |} ->
    (S a + n <= step_count {| coro := c; next_step := 0 |})%nat ->
    run np_sin (map (fun k => Resume i (envs k)) (seq (S a) n)) w
    = set_tasks
        (replace_nth i {| coro := c; next_step := S a + n |} (tasks w))
        (snd (for_each (seq (S a) n)
                (fun step =>
                   loop_body np_sin {| coro := c; next_step := 0 |}
                             step (envs step))
                w)).
Proof.
  induction n as [|n IH]; intros a w Hn Hle.
  - simpl. rewrite Nat.add_0_r, replace_nth_same by assumption.
    now rewrite set_tasks_same.
  - assert (Ha : alive {| coro := c; next_step := S a |} = true).
    { unfold alive. apply Nat.ltb_lt. unfold step_count in *. simpl in *.
      lia. }
    change (run np_sin (map (fun k => Resume i (envs k)) (seq (S a) (S n))) w)
      with (run np_sin (map (fun k => Resume i (envs k)) (seq (S (S a)) n))
                (wake np_sin i (envs (S a)) w)).
    pose proof (wake_alive_task i (envs (S a)) w Hn Ha) as Hn1.
    rewrite (wake_alive _ _ _ _ Hn Ha) in *.
    unfold advanced in *. cbn [coro next_step] in *.
    rewrite (IH (S a) _ Hn1) by (unfold step_count in *; simpl in *; lia).
    cbn [set_tasks tasks]. rewrite replace_nth_twice.
    rewrite loop_set_tasks. cbn [snd].
    change (seq (S a) (S n)) with (S a :: seq (S (S a)) n).
    cbn [for_each]. unfold bind at 1. rewrite loop_body_spec.
    rewrite Nat.add_succ_r. reflexivity.
Qed.

(** A coroutine run from its start to its end, with nothing in between,
    is what the resumptions of its task add up to. *)
Lemma coroutine_is_resumptions i envs c w :
  nth_error (tasks w) i = Some {| coro := c; next_step := 0 |} ->
  run np_sin
      (resumptions i envs (step_count {| coro := c; next_step := 0 |})) w
  = set_tasks
      (replace_nth i
         {| coro := c;
            next_step := step_count {| coro := c; next_step := 0 |} |}
         (tasks w))
      (snd ((prologue {| coro := c; next_step := 0 |} ;;;
             for_each (seq 0 (step_count {| coro := c; next_step := 0 |}))
               (fun step =>
                  loop_body np_sin {| coro := c; next_step := 0 |}
                            step (envs step)))%py w)).
Proof.
  intros Hn.
  assert (Hcount : exists m,
             step_count {| coro := c; next_step := 0 |} = S m).
  { destruct c; eexists; reflexivity. }
  destruct Hcount as (m & Hm). rewrite Hm.
  assert (Ha : alive {| coro := c; next_step := 0 |} = true).
  { unfold alive. rewrite Hm. reflexivity. }
  unfold resumptions.
  change (run np_sin (map (fun k => Resume i (envs k)) (seq 0 (S m))) w)
    with (run np_sin (map (fun k => Resume i (envs k)) (seq 1 m))
              (wake np_sin i (envs 0%nat) w)).
  pose proof (wake_alive_task i (envs 0%nat) w Hn Ha) as Hn1.
  rewrite (wake_alive _ _ _ _ Hn Ha) in *.
  unfold advanced in *. cbn [coro next_step] in *.
  rewrite (@loop_is_resumptions i envs c m 0%nat _ Hn1) by (rewrite Hm; lia).
  cbn [set_tasks tasks]. rewrite replace_nth_twice.
  rewrite loop_set_tasks. cbn [snd].
  unfold bind at 1.
  assert (Hpro : prologue {| coro := c; next_step := 0 |} w
                 = (inr tt,
                    set_simulation_state
                      (set_scenario
                         (scenario_name {| coro := c; next_step := 0 |})) w)).
  { unfold prologue, scenario_name. now destruct c. }
  rewrite Hpro.
  change (seq 0 (S m)) with (0%nat :: seq 1 m).
  cbn [for_each]. unfold bind at 1. rewrite loop_body_spec.
  reflexivity.
Qed.

(** The three coroutines of the source, run without interruption from a
    task at its start. *)
Lemma scenario_coroutines_are_resumptions i envs w :
  (nth_error (tasks w) i
   = Some {| coro := Scenario_1_high_load; next_step := 0 |} ->
   run np_sin (resumptions i envs 30) w
   = set_tasks
       (replace_nth i {| coro := Scenario_1_high_load; next_step := 30 |}
                    (tasks w))
       (snd (scenario_1_high_load envs w))) /\
  (nth_error (tasks w) i
   = Some {| coro := Scenario_2_zone_migration; next_step := 0 |} ->
   run np_sin (resumptions i envs 25) w
   = set_tasks
       (replace_nth i {| coro := Scenario_2_zone_migration; next_step := 25 |}
                    (tasks w))
       (snd (scenario_2_zone_migration envs w))) /\
  (nth_error (tasks w) i
   = Some {| coro := Scenario_3_resource_scaling; next_step := 0 |} ->
   run np_sin (resumptions i envs 20) w
   = set_tasks
       (replace_nth i
          {| coro := Scenario_3_resource_scaling; next_step := 20 |}
          (tasks w))
       (snd (scenario_3_resource_scaling np_sin envs w))).
Proof.
  destruct (coroutines_unfold envs) as (-> & -> & ->).
  repeat split; intros Hn;
    apply (@coroutine_is_resumptions i envs _ w Hn).
Qed.

(** C9.  A resumption of a stepper, live or finished, in any world, leaves
    [running], [vms] and [hosts] of [simulation_state] as they were.  When a
    valid scenario is started in a world that is not running and its task is
    then resumed until its loop has run all of its steps, the task is
    finished, [running] is still [true] and the scenario is still the one
    the task named, not "idle"; the inventory is the one of the start.
    (Outside [simulation_state], a step sends to the registered connections
    and drops those whose send failed.) *)
Theorem stepper_leaves_running_alone :
  (forall t env w,
     running (simulation_state (snd (resume np_sin t env w)))
     = running (simulation_state w) /\
     vms (simulation_state (snd (resume np_sin t env w)))
     = vms (simulation_state w) /\
     hosts (simulation_state (snd (resume np_sin t env w)))
     = hosts (simulation_state w)) /\
  (forall scenario_id envs w,
     running (simulation_state w) = false ->
     In scenario_id [1; 2; 3]%Z ->
     exists t,
       nth_error (tasks (snd (start_scenario scenario_id w)))
                 (List.length (tasks w)) = Some t /\
       next_step t = 0%nat /\
       nth_error
         (tasks (run np_sin
                   (resumptions (List.length (tasks w)) envs (step_count t))
                   (snd (start_scenario scenario_id w))))
         (List.length (tasks w))
       = Some {| coro := coro t; next_step := step_count t |} /\
       alive {| coro := coro t; next_step := step_count t |} = false /\
       running
         (simulation_state
            (run np_sin
               (resumptions (List.length (tasks w)) envs (step_count t))
               (snd (start_scenario scenario_id w)))) = true /\
       scenario
         (simulation_state
            (run np_sin
               (resumptions (List.length (tasks w)) envs (step_count t))
               (snd (start_scenario scenario_id w)))) = scenario_name t /\
       scenario_name t <> "idle" /\
       vms
         (simulation_state
            (run np_sin
               (resumptions (List.length (tasks w)) envs (step_count t))
               (snd (start_scenario scenario_id w))))
       = vms (simulation_state w) /\
       hosts
         (simulation_state
            (run np_sin
               (resumptions (List.length (tasks w)) envs (step_count t))
               (snd (start_scenario scenario_id w))))
       = hosts (simulation_state w)).
Proof.
  split.
  - intros t env w. destruct (alive t) eqn:Ha.
    + rewrite resume_alive by assumption. cbn [snd].
      unfold after_broadcast. cbn [simulation_state].
      destruct (stepped_state np_sin t env w) as (_ & _ & -> & -> & ->).
      auto.
    + rewrite resume_finished by assumption. auto.
  - intros scenario_id envs w Hrun Hid.
    destruct (@start_scenario_valid scenario_id w Hrun Hid) as (c & Heq).
    assert (Hr : running (simulation_state
                            (snd (start_scenario scenario_id w))) = true)
      by (rewrite Heq; reflexivity).
    destruct (start_scenario_state scenario_id w) as (_ & Hv & Hh).
    set (t := {| coro := c; next_step := 0 |}).
    assert (Hn : nth_error (tasks (snd (start_scenario scenario_id w)))
                           (List.length (tasks w)) = Some t).
    { rewrite Heq. cbn [snd set_tasks tasks].
      rewrite nth_error_app2 by lia. now rewrite Nat.sub_diag. }
    exists t. split; [exact Hn|]. split; [reflexivity|].
    destruct (@run_resumptions (List.length (tasks w)) envs (step_count t)
                0%nat _ t Hn) as (H1 & H2 & H3 & H4); [simpl; lia|].
    assert (H5 : scenario
                   (simulation_state
                      (run np_sin
                         (map (fun k => Resume (List.length (tasks w)) (envs k))
                              (seq 0 (step_count t)))
                         (snd (start_scenario scenario_id w))))
                 = scenario_name t).
    { rewrite (@run_resumptions_scenario (List.length (tasks w)) envs
                 (step_count t) 0%nat _ t Hn) by (unfold t; simpl; lia).
      unfold t, step_count. cbn [coro next_step]. now destruct c. }
    unfold resumptions. rewrite H1, H2, H3, H4, H5, Hr, Hv, Hh.
    split; [reflexivity|].
    split; [unfold alive; apply Nat.ltb_irrefl|].
    split; [reflexivity|].
    split; [reflexivity|].
    split; [unfold t, scenario_name; cbn [coro]; destruct c; discriminate|].
    split; reflexivity.
Qed.


End RunClaims.

Lemma stepper_leaves_running_alone_witness :
  running (simulation_state initial_world) = false /\
  exists t,
    next_step t = 0%nat /\
    running
      (simulation_state
         (run sin_zero (resumptions 0 (fun _ => calm_env) (step_count t))
              (snd (start_scenario 1 initial_world)))) = true.
Proof.
  split; [reflexivity|].
  destruct (stepper_leaves_running_alone sin_zero) as [_ Hrun].
  destruct (Hrun 1%Z (fun _ => calm_env) initial_world eq_refl)
    as (t & _ & H0 & _ & _ & Hr & _); [simpl; auto|].
  exists t. split; [exact H0 | exact Hr].
Defined.



(** * Further properties of the code *)

(** ** The registry and the websocket route *)

Lemma receive_loop_texts websocket texts inbox :
  receive_loop websocket (map Text texts ++ inbox)
  = receive_loop websocket inbox.
Proof. induction texts as [|s texts IH]; simpl; auto. Qed.

Lemma list_remove_NoDup x l :
  forall r, list_remove x l = Some r -> NoDup l -> NoDup r.
Proof.
  induction l as [|y l IH]; simpl; intros r Hr Hnd; [discriminate|].
  inversion Hnd as [|? ? Hy Hl]; subst.
  destruct (Nat.eqb y x).
  - now inversion Hr; subst.
  - destruct (list_remove x l) as [r'|] eqn:Hr'; [|discriminate].
    inversion Hr; subst. constructor.
    + intros Hin. apply Hy. now apply (list_remove_Some_In _ _ Hr').
    + now apply IH.
Qed.




(** X1.  The websocket route with a websocket that is not registered yet:
    while the client stays, the websocket is the last entry of the registry
    and the texts it sends change nothing; once the client has gone, the
    world is the one before the connection, whatever it had sent. *)
Theorem websocket_endpoint_round_trip websocket texts later w :
  ~ In websocket (active_connections w) ->
  websocket_endpoint websocket (map Text texts) w
  = (inr tt,
     set_active_connections (active_connections w ++ [websocket])%list w) /\
  websocket_endpoint websocket
    (map Text texts ++ WebSocketDisconnect :: later) w
  = (inr tt, w).
Proof.
  intros Hfresh. unfold websocket_endpoint, bind, connect, modify. split.
  - rewrite <- (app_nil_r (map Text texts)), receive_loop_texts.
    reflexivity.
  - rewrite receive_loop_texts. simpl receive_loop.
    rewrite disconnect_unfold. cbn [active_connections set_active_connections].
    replace (py_in websocket (active_connections w ++ [websocket])) with true.
    2:{ symmetry. apply py_in_In, in_or_app. right. now left. }
    rewrite list_remove_app_fresh by assumption.
    rewrite app_nil_r. f_equal. symmetry. apply World_eta.
Qed.

Lemma websocket_endpoint_round_trip_witness :
  ~ In 9%nat (active_connections three_subscribers) /\
  websocket_endpoint 9%nat [Text "ping"; WebSocketDisconnect]
    three_subscribers
  = (inr tt, three_subscribers).
Proof.
  assert (H : ~ In 9%nat (active_connections three_subscribers)).
  { simpl. intros [H|[H|[H|[]]]]; discriminate. }
  split; [exact H|].
  exact (proj2 (@websocket_endpoint_round_trip 9%nat ["ping"] []
                  three_subscribers H)).
Defined.

(** X21.  When [receive_text] raises something other than
    [WebSocketDisconnect], the handler ends with that exception and
    [manager.disconnect] is not called: the websocket stays registered, and
    the world is the one [connect] left. *)
Theorem handler_error_leaves_the_websocket_registered websocket texts e later w :
  websocket_endpoint websocket (map Text texts ++ Raised e :: later) w
  = (inl e, snd (connect websocket w)) /\
  In websocket
     (active_connections
        (snd (websocket_endpoint websocket
                (map Text texts ++ Raised e :: later) w))).
Proof.
  assert (H : websocket_endpoint websocket
                (map Text texts ++ Raised e :: later) w
              = (inl e, snd (connect websocket w))).
  { unfold websocket_endpoint, bind, connect, modify.
    rewrite receive_loop_texts. reflexivity. }
  split; [exact H|]. rewrite H. simpl. apply in_or_app. right. now left.
Qed.



(** ** A pass and what runs between its sends *)

Lemma disconnect_frame x w :
  wire (snd (disconnect x w)) = wire w /\
  closed (snd (disconnect x w)) = closed w.
Proof.
  rewrite disconnect_unfold.
  destruct (py_in x (active_connections w)); [|now split].
  destruct (list_remove x (active_connections w)); now split.
Qed.

Lemma for_each_disconnect_frame d :
  forall w,
    wire (snd (for_each d disconnect w)) = wire w /\
    closed (snd (for_each d disconnect w)) = closed w.
Proof.
  induction d as [|x d IH]; intros w; [now split|].
  simpl. unfold bind.
  pose proof (disconnect_returns x w) as Hx.
  pose proof (disconnect_frame x w) as (Hw & Hc).
  destruct (disconnect x w) as [[e|[]] w1]; simpl in Hx; [discriminate|].
  simpl in Hw, Hc. rewrite <- Hw, <- Hc. apply IH.
Qed.

Lemma disconnect_other x w y :
  y <> x ->
  count_occ Nat.eq_dec (active_connections (snd (disconnect x w))) y
  = count_occ Nat.eq_dec (active_connections w) y.
Proof.
  intros Hne. rewrite disconnect_unfold.
  destruct (py_in x (active_connections w)); [|reflexivity].
  destruct (list_remove x (active_connections w)) as [r|] eqn:Hr;
    [|reflexivity].
  simpl. rewrite (list_remove_Some_count _ _ Hr y).
  destruct (Nat.eqb_spec y x); [contradiction|]. now rewrite Nat.add_0_r.
Qed.

Lemma for_each_disconnect_other d y :
  forall w,
    ~ In y d ->
    count_occ Nat.eq_dec (active_connections (snd (for_each d disconnect w))) y
    = count_occ Nat.eq_dec (active_connections w) y.
Proof.
  induction d as [|x d IH]; intros w Hn; [reflexivity|].
  simpl. unfold bind.
  pose proof (disconnect_returns x w) as Hx.
  assert (Hne : y <> x) by (intros ->; apply Hn; now left).
  pose proof (@disconnect_other x w y Hne) as Hc.
  destruct (disconnect x w) as [[e|[]] w1]; simpl in Hx; [discriminate|].
  simpl in Hc. rewrite <- Hc. apply IH. intros H. apply Hn. now right.
Qed.

Lemma failed_sends_of_attempts cl message l :
  map to (filter failed_send (map (attempt cl message) l))
  = filter (fun c => py_in c cl) l.
Proof.
  induction l as [|c l IH]; [reflexivity|].
  simpl. unfold failed_send at 1. simpl. rewrite negb_involutive.
  destruct (py_in c cl); simpl; now rewrite IH.
Qed.

Lemma filter_none {A} (P : A -> bool) l :
  (forall x, In x l -> P x = false) -> filter P l = [].
Proof.
  induction l as [|x l IH]; intros H; simpl; [reflexivity|].
  rewrite (H x) by now left. apply IH. intros y Hy. apply H. now right.
Qed.

Section RegistryInvariants.

Variable np_sin : Q -> Q.

Lemma exec_NoDup ev w :
  NoDup (active_connections w) ->
  connects_fresh np_sin [ev] w = true ->
  NoDup (active_connections (exec np_sin ev w)).
Proof.
  intros Hnd Hfresh. simpl in Hfresh. rewrite andb_true_r in Hfresh.
  destruct ev as [id| |g|c|c|c|i env]; simpl.
  - now destruct (start_scenario_frame id w) as (-> & _).
  - exact Hnd.
  - exact Hnd.
  - apply NoDup_app; repeat split; auto.
    + constructor; [intros []|constructor].
    + intros x Hx [<-|[]]. apply negb_true_iff, py_in_not_In in Hfresh.
      contradiction.
  - rewrite disconnect_unfold.
    destruct (py_in c (active_connections w)); [|exact Hnd].
    destruct (list_remove c (active_connections w)) as [r|] eqn:Hr;
      [|exact Hnd].
    simpl. now apply (@list_remove_NoDup c _ r Hr).
  - exact Hnd.
  - destruct (nth_error (tasks w) i) as [t|] eqn:Hn.
    + destruct (alive t) eqn:Ha.
      * rewrite (wake_alive _ _ _ _ Hn Ha).
        unfold set_tasks, after_broadcast. cbn [active_connections].
        destruct (stepped_frame np_sin t env w) as (-> & _).
        now apply NoDup_filter.
      * rewrite wake_idle; [exact Hnd | now rewrite Hn].
    + rewrite wake_idle; [exact Hnd | now rewrite Hn].
Qed.

(** X2.  The registry holds no websocket twice, and keeps it so over every
    sequence of events in which a websocket that connects is not registered
    at that moment (each connection has a websocket of its own).  Then one
    [disconnect] leaves nothing of the websocket in the registry. *)
Theorem registry_has_no_duplicates evs :
  forall w,
    NoDup (active_connections w) ->
    connects_fresh np_sin evs w = true ->
    NoDup (active_connections (run np_sin evs w)) /\
    forall websocket,
      ~ In websocket
           (active_connections
              (snd (disconnect websocket (run np_sin evs w)))).
Proof.
  assert (Hrun : forall evs w,
             NoDup (active_connections w) ->
             connects_fresh np_sin evs w = true ->
             NoDup (active_connections (run np_sin evs w))).
  { clear evs. induction evs as [|ev evs IH]; intros w Hnd Hfresh.
    - exact Hnd.
    - change (run np_sin (ev :: evs) w)
        with (run np_sin evs (exec np_sin ev w)).
      simpl in Hfresh. apply andb_true_iff in Hfresh.
      destruct Hfresh as [Hev Hevs].
      apply IH; [|exact Hevs].
      apply exec_NoDup; [exact Hnd|]. simpl. now rewrite Hev. }
  intros w Hnd Hfresh. specialize (Hrun evs w Hnd Hfresh).
  split; [exact Hrun|].
  intros websocket. apply count_occ_not_In with (eq_dec := Nat.eq_dec).
  apply disconnect_removes.
  now apply NoDup_count_occ with (decA := Nat.eq_dec).
Qed.

Lemma exec_wire ev w :
  is_resume ev = false -> wire (exec np_sin ev w) = wire w.
Proof.
  intros Hev. destruct ev as [id| |g|c|c|c|i env]; simpl in *;
    try reflexivity; try discriminate.
  - now destruct (start_scenario_frame id w) as (_ & _ & H).
  - apply disconnect_frame.
Qed.

Lemma run_wire evs :
  forall w, existsb is_resume evs = false -> wire (run np_sin evs w) = wire w.
Proof.
  induction evs as [|ev evs IH]; intros w Hevs; [reflexivity|].
  simpl in Hevs. apply orb_false_iff in Hevs. destruct Hevs as [Hev Hevs].
  change (run np_sin (ev :: evs) w) with (run np_sin evs (exec np_sin ev w)).
  rewrite IH by assumption. now apply exec_wire.
Qed.

Lemma keeps_registry_no_resume evs :
  forallb keeps_registry evs = true -> existsb is_resume evs = false.
Proof.
  induction evs as [|ev evs IH]; intros H; [reflexivity|].
  simpl in *. apply andb_true_iff in H. destruct H as [Hev Hevs].
  rewrite IH by assumption. now destruct ev.
Qed.

Lemma exec_quiet ev w :
  keeps_registry ev = true ->
  active_connections (exec np_sin ev w) = active_connections w /\
  incl (closed w) (closed (exec np_sin ev w)) /\
  forall c, In c (closed (exec np_sin ev w)) ->
            In c (closed w) \/ is_close_of c ev = true.
Proof.
  intros Hev. destruct ev as [id| |g|c|c|c|i env]; simpl in *;
    try discriminate.
  - destruct (start_scenario_frame id w) as (-> & -> & _).
    split; [reflexivity|]. split; [apply incl_refl|]. now left.
  - split; [reflexivity|]. split; [apply incl_refl|]. now left.
  - split; [reflexivity|]. split; [apply incl_refl|]. now left.
  - split; [reflexivity|]. split; [apply incl_tl, incl_refl|].
    intros x [<-|Hx]; [right; apply Nat.eqb_refl | now left].
Qed.

Lemma run_quiet evs :
  forall w,
    forallb keeps_registry evs = true ->
    active_connections (run np_sin evs w) = active_connections w /\
    incl (closed w) (closed (run np_sin evs w)) /\
    forall c, In c (closed (run np_sin evs w)) ->
              In c (closed w) \/ existsb (is_close_of c) evs = true.
Proof.
  induction evs as [|ev evs IH]; intros w H.
  - split; [reflexivity|]. split; [apply incl_refl|]. now left.
  - simpl in H. apply andb_true_iff in H. destruct H as [Hev Hevs].
    change (run np_sin (ev :: evs) w) with (run np_sin evs (exec np_sin ev w)).
    destruct (@exec_quiet ev w Hev) as (Hr1 & Hi1 & Hc1).
    destruct (IH (exec np_sin ev w) Hevs) as (Hr2 & Hi2 & Hc2).
    split; [now rewrite Hr2|]. split.
    + eapply incl_tran; eassumption.
    + intros c Hc. simpl. destruct (Hc2 c Hc) as [Hin|Hex].
      * destruct (Hc1 c Hin) as [Hin'|Hcl]; [now left|].
        right. now rewrite Hcl.
      * right. rewrite Hex. apply orb_true_r.
Qed.


Lemma skipn_nth_error {A} (l : list A) n x :
  nth_error l n = Some x -> skipn n l = x :: skipn (S n) l.
Proof.
  revert n. induction l as [|y l IH]; intros [|n] H; try discriminate.
  - simpl in H. now inversion H.
  - simpl in H. simpl. now apply IH.
Qed.

Lemma skipn_nth_error_None {A} (l : list A) n :
  nth_error l n = None -> skipn n l = [].
Proof. intros H. apply skipn_all2. now apply nth_error_None. Qed.

(** A pass during which no other [broadcast] runs: what it adds to the wire
    are its own sends, and the connections it returns are those of its
    sends that failed. *)
Lemma broadcast_from_sends sched :
  forall p w,
    existsb is_resume (List.concat sched) = false ->
    exists failed w' ext,
      broadcast_from np_sin sched p w = (inr failed, w') /\
      wire w' = (wire w ++ ext)%list /\
      Forall (fun a => msg a = pass_message p) ext /\
      failed
      = (pass_disconnected p ++ map to (filter failed_send ext))%list.
Proof.
  induction sched as [|evs sched IH]; intros p w Hs.
  - simpl. rewrite pass_finish_spec. eexists. eexists.
    exists (map (attempt (closed w) (pass_message p))
                (skipn (pass_index p) (active_connections w))).
    split; [reflexivity|]. split; [|split].
    + now rewrite (proj1 (for_each_disconnect_frame _ _)).
    + apply Forall_forall. intros a Ha. apply in_map_iff in Ha.
      now destruct Ha as (c & <- & _).
    + now rewrite failed_sends_of_attempts.
  - simpl in Hs. rewrite existsb_app in Hs. apply orb_false_iff in Hs.
    destruct Hs as [Hevs Hs].
    simpl. unfold bind at 1.
    destruct (nth_error (active_connections w) (pass_index p)) as [x|] eqn:Hn.
    + rewrite (pass_step_send _ _ Hn). unfold bind, modify.
      match goal with
      | |- context [broadcast_from np_sin sched ?p1 ?w1] =>
          destruct (IH p1 w1 Hs) as (failed & w' & ext & Heq & Hw & Hm & Hf)
      end.
      rewrite (run_wire _ _ Hevs) in Hw. cbn [pass_message pass_disconnected] in *.
      exists failed, w', (attempt (closed w) (pass_message p) x :: ext).
      split; [exact Heq|]. split; [|split].
      * rewrite Hw. unfold log_send. cbn [wire]. now rewrite <- app_assoc.
      * constructor; [reflexivity | exact Hm].
      * rewrite Hf. simpl. unfold failed_send at 2. simpl.
        rewrite negb_involutive, <- app_assoc.
        now destruct (py_in x (closed w)).
    + rewrite (pass_step_return _ _ Hn). unfold ret.
      eexists. eexists. exists []. split; [reflexivity|]. split; [|split].
      * rewrite app_nil_r. apply for_each_disconnect_frame.
      * constructor.
      * simpl. now rewrite app_nil_r.
Qed.

(** A pass during which nothing else touches the registry: it sends to the
    connections from its index on, each one once and in order; a send to a
    connection whose transport was closed at the start fails, a send to one
    whose transport is open at the end has succeeded; the entries of the
    connections it does not return are all still there. *)
Lemma broadcast_from_quiet sched :
  forall p w,
    forallb keeps_registry (List.concat sched) = true ->
    exists failed w' ext,
      broadcast_from np_sin sched p w = (inr failed, w') /\
      wire w' = (wire w ++ ext)%list /\
      map to ext = skipn (pass_index p) (active_connections w) /\
      Forall (fun a => (In (to a) (closed w) -> delivered a = false) /\
                       (~ In (to a) (closed w') -> delivered a = true)) ext /\
      incl (closed w) (closed w') /\
      (forall c, In c (closed w') ->
                 In c (closed w) \/
                 existsb (is_close_of c) (List.concat sched) = true) /\
      (forall c, ~ In c failed ->
                 count_occ Nat.eq_dec (active_connections w') c
                 = count_occ Nat.eq_dec (active_connections w) c).
Proof.
  induction sched as [|evs sched IH]; intros p w Hs.
  - simpl. rewrite pass_finish_spec. eexists. eexists.
    exists (map (attempt (closed w) (pass_message p))
                (skipn (pass_index p) (active_connections w))).
    split; [reflexivity|].
    match goal with
    | |- context [for_each ?d disconnect ?w1] =>
        destruct (for_each_disconnect_frame d w1) as (Hw & Hc);
        pose proof (for_each_disconnect_other d) as Ho
    end.
    rewrite Hw, Hc. cbn [set_wire wire closed].
    split; [reflexivity|]. split; [|split; [|split; [|split]]].
    + rewrite map_map. simpl. apply map_id.
    + apply Forall_forall. intros a Ha. apply in_map_iff in Ha.
      destruct Ha as (c & <- & _). simpl. split.
      * intros Hin. apply py_in_In in Hin. now rewrite Hin.
      * intros Hout. apply py_in_not_In in Hout. now rewrite Hout.
    + apply incl_refl.
    + intros c Hin. now left.
    + intros c Hout. now rewrite Ho.
  - simpl in Hs. rewrite forallb_app in Hs. apply andb_true_iff in Hs.
    destruct Hs as [Hevs Hs].
    simpl. unfold bind at 1.
    destruct (nth_error (active_connections w) (pass_index p)) as [x|] eqn:Hn.
    + rewrite (pass_step_send _ _ Hn). unfold bind, modify.
      match goal with
      | |- context [broadcast_from np_sin sched ?p1 (run np_sin evs ?w1)] =>
          destruct (run_quiet evs w1 Hevs) as (Hr & Hi & Hcl);
          destruct (IH p1 (run np_sin evs w1) Hs)
            as (failed & w' & ext & Heq & Hw & Hto & Hd & Hi' & Hcl' & Hcnt)
      end.
      rewrite (run_wire _ _ (keeps_registry_no_resume _ Hevs)) in Hw.
      rewrite Hr in Hto, Hcnt.
      unfold log_send in Hw, Hto, Hcnt, Hi, Hcl.
      cbn [wire active_connections closed pass_index] in Hw, Hto, Hcnt, Hi, Hcl.
      exists failed, w', (attempt (closed w) (pass_message p) x :: ext).
      split; [exact Heq|]. split; [|split; [|split; [|split; [|split]]]].
      * rewrite Hw. now rewrite <- app_assoc.
      * simpl map. rewrite Hto. symmetry. now apply skipn_nth_error.
      * constructor.
        -- simpl. split.
           ++ intros Hin. apply py_in_In in Hin. now rewrite Hin.
           ++ intros Hout.
              assert (Hx : ~ In x (closed w)).
              { intros Hin. apply Hout, Hi', Hi, Hin. }
              apply py_in_not_In in Hx. now rewrite Hx.
        -- apply Forall_forall. intros a Ha.
           rewrite Forall_forall in Hd. destruct (Hd a Ha) as (H1 & H2).
           split; [|exact H2]. intros Hin. apply H1, Hi, Hin.
      * eapply incl_tran; eassumption.
      * intros c Hin. rewrite existsb_app.
        destruct (Hcl' c Hin) as [Hin2|Hex].
        -- destruct (Hcl c Hin2) as [Hin1|Hex1]; [now left|].
           right. now rewrite Hex1.
        -- right. rewrite Hex. apply orb_true_r.
      * exact Hcnt.
    + rewrite (pass_step_return _ _ Hn). unfold ret.
      destruct (for_each_disconnect_frame (pass_disconnected p) w) as (Hw & Hc).
      eexists. eexists. exists [].
      split; [reflexivity|]. rewrite Hc.
      split; [|split; [|split; [|split; [|split]]]].
      * now rewrite app_nil_r.
      * simpl. symmetry. now apply skipn_nth_error_None.
      * constructor.
      * apply incl_refl.
      * intros c Hin. now left.
      * intros c Hout. now apply for_each_disconnect_other.
Qed.

(** X4.  [broadcast] with other tasks running at its awaits, as long as
    no stepper broadcasts meanwhile.  It returns normally; what has been
    sent since the call are its own sends, all of them of [message]; the
    connections it takes for failed are exactly those of its sends that
    failed, in order.  Each of them, registered once and not connecting
    again, is out of the registry at the return, stays out and is sent
    nothing as long as it does not connect again.  When, besides, nothing
    else touches the registry during the pass (requests of the REST routes
    arrive, transports close), the pass sends once to every connection
    registered at the call, in order: the send to a connection whose
    transport was closed at the call fails, the send to one whose transport
    is open at the return has succeeded, and every connection whose send did
    not fail is registered as before. *)
Theorem interleaved_pass_isolates_failures message sched w :
  existsb is_resume (List.concat sched) = false ->
  exists failed w',
    broadcast_interleaved np_sin message sched w = (inr failed, w') /\
    Forall (fun a => msg a = message) (sent_since w w') /\
    failed = map to (filter failed_send (sent_since w w')) /\
    (forall c,
       (count_occ Nat.eq_dec (active_connections w) c <= 1)%nat ->
       existsb (is_connect_of c) (List.concat sched) = false ->
       In c failed ->
       ~ In c (active_connections w') /\
       forall evs,
         existsb (is_connect_of c) evs = false ->
         ~ In c (active_connections (run np_sin evs w')) /\
         Forall (fun a => to a <> c) (sent_since w' (run np_sin evs w'))) /\
    (forallb keeps_registry (List.concat sched) = true ->
     map to (sent_since w w') = active_connections w /\
     Forall (fun a => (In (to a) (closed w) -> delivered a = false) /\
                      (~ In (to a) (closed w') -> delivered a = true))
            (sent_since w w') /\
     forall c,
       ~ In c failed ->
       count_occ Nat.eq_dec (active_connections w') c
       = count_occ Nat.eq_dec (active_connections w) c).
Proof.
  intros Hs.
  destruct (broadcast_interleaved_safe np_sin message sched w)
    as (failed & w' & Heq & Hout).
  exists failed, w'. split; [exact Heq|].
  assert (Hlater : forall c,
            ~ In c (active_connections w') ->
            forall evs,
              existsb (is_connect_of c) evs = false ->
              ~ In c (active_connections (run np_sin evs w')) /\
              Forall (fun a => to a <> c)
                     (sent_since w' (run np_sin evs w'))).
  { intros c Hc evs Hevs.
    destruct (@run_keeps_out np_sin c evs _ Hc Hevs) as (H1 & ext & Hw & Hf).
    split; [assumption|]. now rewrite (sent_since_app _ _ _ Hw). }
  destruct (active_connections w) as [|x conns] eqn:Hconns.
  - unfold broadcast_interleaved, bind, get in Heq. rewrite Hconns in Heq.
    inversion Heq; subst failed w'.
    assert (Hnil : sent_since w w = []).
    { apply sent_since_app. now rewrite app_nil_r. }
    rewrite Hnil. split; [constructor|]. split; [reflexivity|]. split.
    + intros c _ _ [].
    + intros _. split; [reflexivity|]. split; [constructor|].
      intros c _. now rewrite Hconns.
  - destruct (broadcast_from_sends sched
                {| pass_message := message; pass_index := 0;
                   pass_disconnected := [] |} w Hs)
      as (failed1 & w1 & ext & Heq1 & Hw & Hm & Hf).
    assert (Hsame : failed1 = failed /\ w1 = w').
    { unfold broadcast_interleaved, bind, get in Heq. rewrite Hconns in Heq.
      rewrite Heq1 in Heq. now inversion Heq. }
    destruct Hsame as [Hf1 Hw1]. rewrite Hf1 in Hf, Heq1.
    rewrite Hw1 in Hw, Heq1. clear Heq failed1 w1 Hf1 Hw1.
    rewrite (sent_since_app _ _ _ Hw).
    split; [exact Hm|]. split; [exact Hf|]. split.
    + intros c Hle Hevs Hin. specialize (Hout c Hle Hevs Hin).
      split; [exact Hout | now apply Hlater].
    + intros Hq.
      destruct (broadcast_from_quiet sched
                  {| pass_message := message; pass_index := 0;
                     pass_disconnected := [] |} w Hq)
        as (failed2 & w2 & ext2 & Heq2 & Hw2 & Hto & Hd & _ & _ & Hcnt).
      assert (Hsame : failed2 = failed /\ w2 = w').
      { rewrite Heq2 in Heq1. now inversion Heq1. }
      destruct Hsame as [Hf2 Hw2']. rewrite Hf2 in Hcnt.
      rewrite Hw2' in Hw2, Hd, Hcnt. clear Heq2 failed2 w2 Hf2 Hw2'.
      rewrite Hw in Hw2. apply app_inv_head in Hw2. rewrite <- Hw2 in Hto, Hd.
      cbn [pass_index skipn] in Hto. rewrite Hconns in Hto, Hcnt.
      split; [exact Hto|].
      split; [exact Hd | exact Hcnt].
Qed.

(** X5.  A websocket with an open transport that has just connected is
    sent the message of the next [broadcast], after the connections
    registered before it, and is registered when that [broadcast] returns,
    provided that nothing else touches the registry during the pass (no
    websocket connects or disconnects, no stepper broadcasts) and that its
    transport stays open; requests of the REST routes and other transports
    closing may come between the sends. *)
Theorem new_subscriber_is_served websocket message sched w :
  ~ In websocket (active_connections w) ->
  ~ In websocket (closed w) ->
  forallb keeps_registry (List.concat sched) = true ->
  existsb (is_close_of websocket) (List.concat sched) = false ->
  exists failed w',
    broadcast_interleaved np_sin message sched (snd (connect websocket w))
    = (inr failed, w') /\
    map to (sent_since (snd (connect websocket w)) w')
    = (active_connections w ++ [websocket])%list /\
    In {| to := websocket; msg := message; delivered := true |}
       (sent_since (snd (connect websocket w)) w') /\
    In websocket (active_connections w').
Proof.
  intros Hfresh Hopen Hq Hcl.
  set (w1 := snd (connect websocket w)).
  assert (Hreg : active_connections w1 = (active_connections w ++ [websocket])%list)
    by reflexivity.
  assert (Hclosed : closed w1 = closed w) by reflexivity.
  assert (Hwire : wire w1 = wire w) by reflexivity.
  unfold broadcast_interleaved, bind, get.
  destruct (active_connections w1) as [|x conns] eqn:Hconns.
  { destruct (active_connections w); discriminate. }
  destruct (broadcast_from_sends sched
              {| pass_message := message; pass_index := 0;
                 pass_disconnected := [] |} w1
              (keeps_registry_no_resume _ Hq))
    as (failed & w' & ext & Heq & Hw & Hm & Hf).
  destruct (broadcast_from_quiet sched
              {| pass_message := message; pass_index := 0;
                 pass_disconnected := [] |} w1 Hq)
    as (failed2 & w2 & ext2 & Heq2 & Hw2 & Hto & Hd & _ & Hcls & Hcnt).
  assert (Hsame : failed2 = failed /\ w2 = w')
    by (rewrite Heq in Heq2; now inversion Heq2).
  destruct Hsame as [Hf2 Hw2']. rewrite Hf2 in Hcnt.
  rewrite Hw2' in Hw2, Hd, Hcnt, Hcls. clear Heq2 failed2 w2 Hf2 Hw2'.
  rewrite Hw in Hw2. apply app_inv_head in Hw2. rewrite <- Hw2 in Hto, Hd.
  clear ext2 Hw2.
  cbn [pass_index pass_disconnected pass_message skipn app] in *.
  exists failed, w'. split; [exact Heq|].
  rewrite (sent_since_app _ _ _ Hw).
  rewrite Hconns, Hreg in Hto. rewrite Hconns, Hreg in Hcnt.
  assert (Hopen' : ~ In websocket (closed w')).
  { intros Hin. destruct (Hcls _ Hin) as [Hin1|Hex].
    - apply Hopen. now rewrite <- Hclosed.
    - congruence. }
  assert (Hsend : In {| to := websocket; msg := message; delivered := true |}
                     ext).
  { assert (Hin : In websocket (map to ext)).
    { rewrite Hto. apply in_or_app. right. now left. }
    apply in_map_iff in Hin. destruct Hin as (a & Hta & Ha).
    rewrite Forall_forall in Hm, Hd.
    pose proof (Hm a Ha) as Hma. destruct (Hd a Ha) as (_ & Hda).
    rewrite Hta in Hda. specialize (Hda Hopen').
    destruct a as [t m d]. simpl in *. now subst. }
  split; [exact Hto|]. split; [exact Hsend|].
  apply (count_occ_In Nat.eq_dec). rewrite Hcnt.
  - rewrite count_occ_app. simpl.
    destruct (Nat.eq_dec websocket websocket); [|congruence].
    rewrite Nat.add_1_r. apply Nat.lt_0_succ.
  - rewrite Hf. simpl. intros Hin. apply in_map_iff in Hin.
    destruct Hin as (a & Hta & Ha). apply filter_In in Ha.
    destruct Ha as (Ha & Hfs).
    rewrite Forall_forall in Hd. destruct (Hd a Ha) as (_ & Hda).
    rewrite Hta in Hda. specialize (Hda Hopen').
    unfold failed_send in Hfs. rewrite Hda in Hfs. discriminate.
Qed.

(** X6.  The first loop of [broadcast] iterates the registry itself.  When
    the handler of the first subscriber disconnects it while [broadcast]
    awaits the send to it, the iterator, already at index 1, goes on with
    what is now the second entry: the subscriber that was second is sent
    nothing in that pass, though its transport is open and it stays
    registered; the others are served. *)
Theorem disconnect_during_pass_skips_a_subscriber message a b others w :
  active_connections w = a :: b :: others ->
  NoDup (a :: b :: others) ->
  all_open w ->
  fst (broadcast_interleaved np_sin message [[Ws_disconnect a]] w) = inr [] /\
  active_connections
    (snd (broadcast_interleaved np_sin message [[Ws_disconnect a]] w))
  = b :: others /\
  sent_since w
    (snd (broadcast_interleaved np_sin message [[Ws_disconnect a]] w))
  = map (fun c => {| to := c; msg := message; delivered := true |})
        (a :: others) /\
  Forall (fun s => to s <> b)
    (sent_since w
       (snd (broadcast_interleaved np_sin message [[Ws_disconnect a]] w))).
Proof.
  intros Hreg Hnd Hopen.
  assert (Hsent : forall w',
             sent_since w w'
             = map (fun c => {| to := c; msg := message; delivered := true |})
                   (a :: others) ->
             Forall (fun s => to s <> b) (sent_since w w')).
  { intros w' ->. apply Forall_forall. intros s Hs. apply in_map_iff in Hs.
    destruct Hs as (c & <- & Hc). simpl. intros ->.
    inversion Hnd as [|? ? Ha Hnd']; subst.
    inversion Hnd' as [|? ? Hb _]; subst.
    destruct Hc as [->|Hc]; [apply Ha; now left | contradiction]. }
  assert (Hcl : forall c, In c (a :: b :: others) -> py_in c (closed w) = false).
  { intros c Hc. apply py_in_not_In. apply Hopen. now rewrite Hreg. }
  assert (Heq : broadcast_interleaved np_sin message [[Ws_disconnect a]] w
                = (inr [],
                   set_wire
                     (wire w
                      ++ map (fun c => {| to := c; msg := message;
                                          delivered := true |})
                             (a :: others))%list
                     (set_active_connections (b :: others) w))).
  { unfold broadcast_interleaved, bind at 1, get. rewrite Hreg.
    cbn [broadcast_from]. unfold bind at 1.
    rewrite (@pass_step_send
               {| pass_message := message; pass_index := 0;
                  pass_disconnected := [] |} w a)
      by (cbn [pass_index]; now rewrite Hreg).
    cbn [pass_message pass_index pass_disconnected].
    rewrite (Hcl a) by now left. cbn [app].
    unfold bind, modify. rewrite pass_finish_spec.
    cbn [pass_message pass_index pass_disconnected run fold_left exec].
    rewrite disconnect_unfold.
    cbn [active_connections log_send closed]. rewrite Hreg.
    cbn [py_in existsb list_remove]. rewrite Nat.eqb_refl. cbn [orb snd].
    cbn [active_connections set_active_connections log_send closed wire
         skipn app].
    rewrite (@filter_none _ (fun c => py_in c (closed w)) others)
      by (intros c Hc; apply Hcl; right; now right).
    cbn [for_each ret snd]. unfold ret, set_wire, set_active_connections.
    cbn [simulation_state active_connections tasks closed wire].
    rewrite <- app_assoc. do 3 f_equal.
    change ([attempt (closed w) message a]
            ++ map (attempt (closed w) message) others)%list
      with (map (attempt (closed w) message) (a :: others)).
    apply map_ext_in. intros c Hc. unfold attempt.
    rewrite Hcl; [reflexivity|].
    destruct Hc as [->|Hc]; [now left | right; now right]. }
  rewrite Heq. cbn [fst snd].
  assert (Hs : sent_since w
                 (set_wire
                    (wire w
                     ++ map (fun c => {| to := c; msg := message;
                                         delivered := true |})
                            (a :: others))%list
                    (set_active_connections (b :: others) w))
               = map (fun c => {| to := c; msg := message;
                                  delivered := true |}) (a :: others)).
  { now apply sent_since_app. }
  split; [reflexivity|]. split; [reflexivity|].
  split; [exact Hs | now apply Hsent].
Qed.

End RegistryInvariants.

(** ** The formulas of the scenarios *)

Lemma Qltb_lt a b : Qltb a b = true -> a < b.
Proof.
  unfold Qltb. rewrite Qlt_alt. now destruct (a ?= b).
Qed.

Lemma scenario_1_caps_and_bounds_count step g count :
  (count <= vm_migration_count (scenario_1_metrics step g count)
   <= count + 1)%Z.
Proof.
  unfold scenario_1_metrics. cbn [vm_migration_count].
  destruct (Qltb 80 (scenario_1_cpu_util step g)
            && Qltb (random g 0) (3 # 10)); lia.
Qed.

(** X7.  Scenario 1 caps the four percentages lower than 100: the CPU
    utilization it writes is within [[0, 95]], the RAM usage within
    [[0, 90]], the storage usage within [[0, 85]] and the bandwidth usage
    within [[0, 80]], whatever the step and the jitter.  A step adds at most
    one migration, and adds one only when the CPU utilization it writes is
    above 80. *)
Theorem scenario_1_caps_and_migration_trigger step g count :
  (0 <= cpu_utilization (scenario_1_metrics step g count) <= 95) /\
  (0 <= ram_usage (scenario_1_metrics step g count) <= 90) /\
  (0 <= storage_usage (scenario_1_metrics step g count) <= 85) /\
  (0 <= bandwidth_usage (scenario_1_metrics step g count) <= 80) /\
  (count <= vm_migration_count (scenario_1_metrics step g count)
   <= count + 1)%Z /\
  (cpu_utilization (scenario_1_metrics step g count) <= 80 ->
   vm_migration_count (scenario_1_metrics step g count) = count).
Proof.
  unfold scenario_1_metrics.
  cbn [cpu_utilization ram_usage storage_usage bandwidth_usage
       vm_migration_count].
  repeat split;
    try (unfold scenario_1_cpu_util; clamps; lra);
    try (destruct (Qltb 80 (scenario_1_cpu_util step g)
                   && Qltb (random g 0) (3 # 10)); lia).
  intros Hle.
  destruct (Qltb 80 (scenario_1_cpu_util step g)) eqn:Hhot; [|reflexivity].
  apply Qltb_lt in Hhot. exfalso. revert Hle Hhot.
  generalize (scenario_1_cpu_util step g). intros x. clamps. lra.
Qed.

(** X8.  In scenario 2 and in scenario 3 every zone is written with a
    utilization within [[0, 100]] and with at least 2, 3 and 1 VMs for the
    slow, the medium and the fast zone, whatever the step, the jitter and
    the values of [np.sin]. *)
Theorem scenarios_2_and_3_bound_the_zones np_sin step g :
  zone_status_ok (scenario_2_zone_status step) /\
  zone_status_ok (scenario_3_zone_status np_sin step g) /\
  (2 <= vm_count (high_resource_slow (scenario_2_zone_status step)))%Z /\
  (3 <= vm_count (medium (scenario_2_zone_status step)))%Z /\
  (1 <= vm_count (fast_small (scenario_2_zone_status step)))%Z /\
  (2 <= vm_count (high_resource_slow
                    (scenario_3_zone_status np_sin step g)))%Z /\
  (3 <= vm_count (medium (scenario_3_zone_status np_sin step g)))%Z /\
  (1 <= vm_count (fast_small (scenario_3_zone_status np_sin step g)))%Z.
Proof.
  split; [apply scenario_2_zone_status_ok|].
  split; [apply scenario_3_zone_status_ok|].
  unfold scenario_2_zone_status, scenario_3_zone_status.
  cbn [vm_count high_resource_slow medium fast_small].
  repeat split; lia.
Qed.

(** X9.  Scenario 1 writes 6 to 10 VMs for the slow zone, 4 to 6 for the
    medium one and 1 to 3 for the fast one, and a utilization of at most
    100 for each, whatever the step and the jitter. *)
Theorem scenario_1_zone_ranges step g :
  (6 <= vm_count (high_resource_slow (scenario_1_zone_status step g))
   <= 10)%Z /\
  (4 <= vm_count (medium (scenario_1_zone_status step g)) <= 6)%Z /\
  (1 <= vm_count (fast_small (scenario_1_zone_status step g)) <= 3)%Z /\
  utilization (high_resource_slow (scenario_1_zone_status step g)) <= 100 /\
  utilization (medium (scenario_1_zone_status step g)) <= 100 /\
  utilization (fast_small (scenario_1_zone_status step g)) <= 100.
Proof.
  pose proof (@randint_range g 0%nat (-2)%Z 3%Z eq_refl).
  pose proof (@randint_range g 1%nat (-1)%Z 2%Z eq_refl).
  pose proof (@randint_range g 2%nat (-1)%Z 2%Z eq_refl).
  unfold scenario_1_zone_status.
  cbn [vm_count utilization high_resource_slow medium fast_small].
  repeat split; try lia; clamps; lra.
Qed.

(** X10.  In scenario 3 the utilization written for the fast zone is at
    most the one of the medium zone, which is at most the one of the slow
    zone. *)
Theorem scenario_3_orders_the_zones np_sin step g :
  utilization (fast_small (scenario_3_zone_status np_sin step g))
  <= utilization (medium (scenario_3_zone_status np_sin step g)) /\
  utilization (medium (scenario_3_zone_status np_sin step g))
  <= utilization (high_resource_slow (scenario_3_zone_status np_sin step g)).
Proof.
  unfold scenario_3_zone_status.
  cbn [utilization high_resource_slow medium fast_small].
  match goal with
  | |- context [Qdiv ?s (4 # 1)] => generalize (Qdiv s (4 # 1))
  end.
  intros total_utilization. clamps. split; lra.
Qed.

Lemma scenario_1_caps_and_migration_trigger_witness :
  cpu_utilization (scenario_1_metrics 0 calm 7) <= 80 /\
  vm_migration_count (scenario_1_metrics 0 calm 7) = 7%Z.
Proof.
  assert (H : cpu_utilization (scenario_1_metrics 0 calm 7) <= 80)
    by (vm_compute; discriminate).
  split; [exact H|].
  exact (proj2 (proj2 (proj2 (proj2 (proj2
           (scenario_1_caps_and_migration_trigger 0 calm 7))))) H).
Defined.

(** ** Whole runs of the coroutines *)

Section WholeRuns.

Variable np_sin : Q -> Q.

Lemma loop_migrations t envs steps :
  forall w,
    migrations
      (snd (for_each steps
              (fun step => loop_body np_sin t step (envs step)) w))
    = count_after np_sin t envs steps (migrations w).
Proof.
  induction steps as [|step steps IH]; intros w; [reflexivity|].
  cbn [for_each]. unfold bind. rewrite loop_body_spec.
  rewrite IH. reflexivity.
Qed.

Lemma count_after_scenario_1 envs steps :
  forall count,
    (count
     <= count_after np_sin
          {| coro := Scenario_1_high_load; next_step := 0 |} envs steps count
     <= count + Z.of_nat (List.length steps))%Z.
Proof.
  induction steps as [|step steps IH]; intros count.
  - simpl. lia.
  - change (count_after np_sin
              {| coro := Scenario_1_high_load; next_step := 0 |} envs
              (step :: steps) count)
      with (count_after np_sin
              {| coro := Scenario_1_high_load; next_step := 0 |} envs steps
              (vm_migration_count
                 (scenario_1_metrics step (rng (envs step)) count))).
    specialize (IH (vm_migration_count
                      (scenario_1_metrics step (rng (envs step)) count))).
    pose proof (scenario_1_caps_and_bounds_count step (rng (envs step)) count).
    cbn [List.length]. rewrite Nat2Z.inj_succ. lia.
Qed.

Lemma coroutine_migrations c envs steps w :
  fst ((prologue {| coro := c; next_step := 0 |} ;;;
        for_each steps
          (fun step =>
             loop_body np_sin {| coro := c; next_step := 0 |}
                       step (envs step)))%py w)
  = inr tt /\
  migrations
    (snd ((prologue {| coro := c; next_step := 0 |} ;;;
           for_each steps
             (fun step =>
                loop_body np_sin {| coro := c; next_step := 0 |}
                          step (envs step)))%py w))
  = count_after np_sin {| coro := c; next_step := 0 |} envs steps
                (migrations w).
Proof.
  assert (Hbind : forall (k : Py World unit),
             (prologue {| coro := c; next_step := 0 |} ;;; k)%py w
             = k (set_simulation_state
                    (set_scenario
                       (scenario_name {| coro := c; next_step := 0 |})) w)).
  { intros k. unfold bind, prologue, scenario_name. now destruct c. }
  rewrite !Hbind. split; [apply loop_returns|].
  now rewrite loop_migrations.
Qed.

Lemma count_after_scenario_3 envs count :
  count_after np_sin {| coro := Scenario_3_resource_scaling; next_step := 0 |}
              envs (seq 0 20) count
  = (count + 5)%Z.
Proof.
  unfold count_after, task_metrics, scenario_3_metrics.
  cbn [coro seq fold_left vm_migration_count].
  cbn [Z.of_nat Pos.of_succ_nat Pos.succ Z.modulo Z.div_eucl Z.pos_div_eucl
       Z.eqb Z.ltb Z.leb Z.compare Pos.compare Pos.compare_cont Z.add Z.sub
       Z.mul Pos.mul Pos.add Z.succ_double Z.double Z.pos_sub Z.opp
       Pos.pred_double Z.pred_double Pos.succ].
  lia.
Qed.

Lemma count_after_scenario_2 envs count :
  (count + 8
   <= count_after np_sin
        {| coro := Scenario_2_zone_migration; next_step := 0 |}
        envs (seq 0 25) count
   <= count + 24)%Z.
Proof.
  unfold count_after, task_metrics, scenario_2_metrics.
  cbn [coro seq fold_left vm_migration_count Nat.leb andb].
  pose proof (@randint_range (rng (envs 8%nat)) 0%nat 1%Z 4%Z eq_refl).
  pose proof (@randint_range (rng (envs 9%nat)) 0%nat 1%Z 4%Z eq_refl).
  pose proof (@randint_range (rng (envs 10%nat)) 0%nat 1%Z 4%Z eq_refl).
  pose proof (@randint_range (rng (envs 11%nat)) 0%nat 1%Z 4%Z eq_refl).
  pose proof (@randint_range (rng (envs 12%nat)) 0%nat 1%Z 4%Z eq_refl).
  pose proof (@randint_range (rng (envs 13%nat)) 0%nat 1%Z 4%Z eq_refl).
  pose proof (@randint_range (rng (envs 14%nat)) 0%nat 1%Z 4%Z eq_refl).
  pose proof (@randint_range (rng (envs 15%nat)) 0%nat 1%Z 4%Z eq_refl).
  lia.
Qed.

(** X11.  Run from start to end, each scenario coroutine returns normally
    and leaves a migration count that is the one it found plus 0 to 30 for
    scenario 1, plus 8 to 24 for scenario 2 (one to three at each of the
    steps 8 to 15) and plus 5 for scenario 3 (one at each of the steps 0, 4,
    8, 12 and 16), whatever the jitter. *)
Theorem whole_run_migrations envs w :
  fst (scenario_1_high_load envs w) = inr tt /\
  (migrations w <= migrations (snd (scenario_1_high_load envs w))
   <= migrations w + 30)%Z /\
  fst (scenario_2_zone_migration envs w) = inr tt /\
  (migrations w + 8 <= migrations (snd (scenario_2_zone_migration envs w))
   <= migrations w + 24)%Z /\
  fst (scenario_3_resource_scaling np_sin envs w) = inr tt /\
  migrations (snd (scenario_3_resource_scaling np_sin envs w))
  = (migrations w + 5)%Z.
Proof.
  destruct (coroutines_unfold np_sin envs) as (-> & -> & ->).
  destruct (coroutine_migrations Scenario_1_high_load envs (seq 0 30) w)
    as (-> & ->).
  destruct (coroutine_migrations Scenario_2_zone_migration envs (seq 0 25) w)
    as (-> & ->).
  destruct (coroutine_migrations Scenario_3_resource_scaling envs
              (seq 0 20) w) as (-> & ->).
  split; [reflexivity|]. split.
  { pose proof (count_after_scenario_1 envs (seq 0 30) (migrations w)) as H.
    rewrite length_seq in H. exact H. }
  split; [reflexivity|]. split; [apply count_after_scenario_2|].
  split; [reflexivity | apply count_after_scenario_3].
Qed.

End WholeRuns.

(** ** The inventory *)

Lemma make_hosts_untouched :
  Forall host_untouched (map Host_to_dict make_hosts).
Proof.
  unfold make_hosts. rewrite map_map. apply Forall_forall. intros h Hh.
  apply in_map_iff in Hh. destruct Hh as (i & <- & _).
  unfold host_untouched. simpl. auto.
Qed.

Lemma make_vms_untouched g :
  Forall vm_untouched (map VirtualMachine_to_dict (make_vms g)).
Proof.
  unfold make_vms. rewrite map_map. apply Forall_forall. intros v Hv.
  apply in_map_iff in Hv. destruct Hv as (i & <- & _).
  unfold vm_untouched, VirtualMachine_to_dict, new_VirtualMachine.
  cbn [VmDict.current_zone VmDict.host_id VmDict.migration_count
       VmDict.cpu_req VmDict.ram_req VmDict.storage_req VmDict.bandwidth_req
       current_zone vm_host_id migration_count cpu_req ram_req storage_req
       bandwidth_req].
  repeat split; try reflexivity; unfold py_max; apply Q.le_max_l.
Qed.

Section Inventory.

Variable np_sin : Q -> Q.

Lemma exec_inventory ev w :
  is_reset ev = false ->
  vms (simulation_state (exec np_sin ev w)) = vms (simulation_state w) /\
  hosts (simulation_state (exec np_sin ev w)) = hosts (simulation_state w).
Proof.
  destruct ev as [id| |g|c|c|c|i env]; simpl; intros Hr;
    try discriminate; try (split; reflexivity).
  - now destruct (start_scenario_state id w) as (_ & -> & ->).
  - rewrite disconnect_unfold.
    destruct (py_in c (active_connections w)); [|split; reflexivity].
    destruct (list_remove c (active_connections w)); split; reflexivity.
  - now destruct (wake_frame np_sin i env w) as (_ & -> & ->).
Qed.

(** X12.  Nothing but a reset touches the inventory: over every sequence of
    requests, connections and steps of the scenarios without a reset,
    [GET /api/hosts] and [GET /api/vms] answer at the end what they would
    have answered at the start. *)
Theorem only_reset_changes_the_inventory evs :
  forall w,
    existsb is_reset evs = false ->
    fst (get_hosts (run np_sin evs w)) = fst (get_hosts w) /\
    fst (get_vms (run np_sin evs w)) = fst (get_vms w).
Proof.
  induction evs as [|ev evs IH]; intros w Hr; [split; reflexivity|].
  simpl in Hr. apply orb_false_iff in Hr. destruct Hr as [Hev Hevs].
  change (run np_sin (ev :: evs) w) with (run np_sin evs (exec np_sin ev w)).
  destruct (IH (exec np_sin ev w) Hevs) as (-> & ->).
  destruct (exec_inventory ev w Hev) as (Hv & Hh).
  unfold get_hosts, get_vms, bind, get, ret. cbn [fst].
  now rewrite Hv, Hh.
Qed.

Lemma run_inventory evs :
  forall w,
    (hosts (simulation_state w) = make_hosts /\
     exists g, vms (simulation_state w) = make_vms g) ->
    hosts (simulation_state (run np_sin evs w)) = make_hosts /\
    exists g, vms (simulation_state (run np_sin evs w)) = make_vms g.
Proof.
  induction evs as [|ev evs IH]; intros w Hw; [exact Hw|].
  change (run np_sin (ev :: evs) w) with (run np_sin evs (exec np_sin ev w)).
  apply IH. destruct (is_reset ev) eqn:Hr.
  - destruct ev; simpl in Hr; try discriminate.
    simpl. split; [reflexivity | eexists; reflexivity].
  - destruct (exec_inventory ev w Hr) as (-> & ->). exact Hw.
Qed.

(** X13.  Once the process has started, whatever requests, connections and
    steps of the scenarios follow, resets included, [GET /api/hosts] answers
    the 5 hosts Host_0 to Host_4, each with all of its capacity available
    and no VM in any zone, and [GET /api/vms] answers the 15 VMs VM_0 to
    VM_14, none of them placed or migrated and each requesting at least 10
    CPU, 1000 RAM, 10000 storage and 10 bandwidth; neither route changes the
    state.  The migrations that the metrics count never show in the
    inventory. *)
Theorem inventory_is_never_updated g evs :
  exists hs vs,
    get_hosts (run np_sin evs (booted g))
    = (inr hs, run np_sin evs (booted g)) /\
    get_vms (run np_sin evs (booted g))
    = (inr vs, run np_sin evs (booted g)) /\
    map HostDict.host_id hs
    = ["Host_0"; "Host_1"; "Host_2"; "Host_3"; "Host_4"]%string /\
    Forall host_untouched hs /\
    map VmDict.vm_id vs
    = ["VM_0"; "VM_1"; "VM_2"; "VM_3"; "VM_4"; "VM_5"; "VM_6"; "VM_7";
       "VM_8"; "VM_9"; "VM_10"; "VM_11"; "VM_12"; "VM_13"; "VM_14"]%string /\
    Forall vm_untouched vs.
Proof.
  destruct (run_inventory evs (booted g)) as (Hh & g' & Hv).
  { split; [reflexivity | exists g; reflexivity]. }
  eexists. eexists.
  split; [reflexivity|]. split; [reflexivity|].
  rewrite Hh, Hv.
  split; [reflexivity|]. split; [apply make_hosts_untouched|].
  split; [reflexivity | apply make_vms_untouched].
Qed.

End Inventory.

(** ** The status route and the run controller *)

Lemma scenario_1_zone_status_capped step g :
  zone_status_capped (scenario_1_zone_status step g).
Proof.
  destruct (scenario_1_zone_status_upper step g)
    as (H1 & H2 & H3 & H4 & H5 & H6).
  unfold zone_status_capped, zone_entry_capped. auto.
Qed.

Lemma zone_status_ok_capped z : zone_status_ok z -> zone_status_capped z.
Proof.
  unfold zone_status_ok, zone_entry_ok, percent, zone_status_capped,
    zone_entry_capped.
  tauto.
Qed.

Section Status.

Variable np_sin : Q -> Q.

Lemma task_zone_status_capped t step g :
  zone_status_capped (task_zone_status np_sin t step g).
Proof.
  unfold task_zone_status. destruct (coro t).
  - apply scenario_1_zone_status_capped.
  - apply zone_status_ok_capped, scenario_2_zone_status_ok.
  - apply zone_status_ok_capped, scenario_3_zone_status_ok.
Qed.

Lemma exec_status_bounds ev w :
  percent_metrics (metrics (simulation_state w)) /\
  zone_status_capped (zone_status (simulation_state w)) ->
  percent_metrics (metrics (simulation_state (exec np_sin ev w))) /\
  zone_status_capped (zone_status (simulation_state (exec np_sin ev w))).
Proof.
  intros Hw.
  destruct ev as [id| |g|c|c|c|i env]; simpl; try exact Hw.
  - unfold start_scenario, bind, get, try_except, assign, modify, raise, ret,
      create_task.
    destruct (running (simulation_state w)); simpl; [exact Hw|].
    destruct (id =? 1)%Z; simpl; [exact Hw|].
    destruct (id =? 2)%Z; simpl; [exact Hw|].
    destruct (id =? 3)%Z; simpl; exact Hw.
  - unfold percent_metrics, percent, zone_status_capped, zone_entry_capped.
    simpl. repeat split; try lia; try lra.
  - rewrite disconnect_unfold.
    destruct (py_in c (active_connections w)); [|exact Hw].
    destruct (list_remove c (active_connections w)); exact Hw.
  - destruct (nth_error (tasks w) i) as [t|] eqn:Hn.
    + destruct (alive t) eqn:Ha.
      * rewrite (wake_alive _ _ _ _ Hn Ha).
        unfold set_tasks, after_broadcast. cbn [simulation_state].
        destruct (stepped_state np_sin t env w) as (-> & -> & _).
        split; [apply task_metrics_percent | apply task_zone_status_capped].
      * rewrite wake_idle; [exact Hw | now rewrite Hn].
    + rewrite wake_idle; [exact Hw | now rewrite Hn].
Qed.

(** X14.  From a state whose four percentages are within [[0, 100]] and
    whose zones have a count that is not negative and a utilization of at
    most 100, as the initial state is, every sequence of requests,
    connections and steps of the scenarios leads to a state of which
    [GET /api/status] reports the same: the bounds hold at every poll, not
    only in what is broadcast. *)
Theorem status_stays_within_bounds evs :
  forall w,
    percent_metrics (metrics (simulation_state w)) ->
    zone_status_capped (zone_status (simulation_state w)) ->
    exists reply,
      get_status (run np_sin evs w) = (inr reply, run np_sin evs w) /\
      percent_metrics (status_metrics reply) /\
      zone_status_capped (status_zone_status reply).
Proof.
  assert (Hrun : forall evs w,
             percent_metrics (metrics (simulation_state w)) /\
             zone_status_capped (zone_status (simulation_state w)) ->
             percent_metrics
               (metrics (simulation_state (run np_sin evs w))) /\
             zone_status_capped
               (zone_status (simulation_state (run np_sin evs w)))).
  { clear evs. induction evs as [|ev evs IH]; intros w Hw; [exact Hw|].
    change (run np_sin (ev :: evs) w)
      with (run np_sin evs (exec np_sin ev w)).
    apply IH. now apply exec_status_bounds. }
  intros w Hm Hz. destruct (Hrun evs w (conj Hm Hz)) as (Hm' & Hz').
  eexists. split; [reflexivity|]. split; assumption.
Qed.

(** X15.  The status route reports the snapshot of the latest step: right
    after a step of a live stepper, the metrics and the zone status that
    [GET /api/status] answers are those of every event the step has sent. *)
Theorem status_reflects_the_latest_step t env w :
  alive t = true ->
  exists reply,
    get_status (snd (resume np_sin t env w))
    = (inr reply, snd (resume np_sin t env w)) /\
    status_metrics reply
    = task_metrics np_sin t (next_step t) (rng env) (migrations w) /\
    status_zone_status reply
    = task_zone_status np_sin t (next_step t) (rng env) /\
    Forall (fun s => data (msg s) = status_metrics reply /\
                     payload_zone_status (msg s) = status_zone_status reply)
           (sent_since w (snd (resume np_sin t env w))).
Proof.
  intros Ha. eexists. split; [reflexivity|].
  cbn [status_metrics status_zone_status].
  rewrite (resume_sent np_sin t env w Ha).
  rewrite resume_alive by assumption. cbn [snd].
  unfold after_broadcast at 1 2. cbn [simulation_state].
  destruct (stepped_state np_sin t env w) as (Hm & Hz & _).
  split; [exact Hm|]. split; [exact Hz|].
  apply Forall_forall. intros s Hs. apply in_map_iff in Hs.
  destruct Hs as (c & <- & _). split; reflexivity.
Qed.

End Status.

Lemma status_stays_within_bounds_witness :
  percent_metrics (metrics (simulation_state initial_world)) /\
  zone_status_capped (zone_status (simulation_state initial_world)) /\
  exists reply,
    get_status (run sin_zero [Post_scenario 1; Resume 0 cold_env]
                    initial_world)
    = (inr reply,
       run sin_zero [Post_scenario 1; Resume 0 cold_env] initial_world) /\
    percent_metrics (status_metrics reply).
Proof.
  assert (Hm : percent_metrics (metrics (simulation_state initial_world))).
  { unfold percent_metrics, percent. simpl. repeat split; lra. }
  assert (Hz : zone_status_capped
                 (zone_status (simulation_state initial_world))).
  { unfold zone_status_capped, zone_entry_capped. simpl.
    repeat split; try lia; lra. }
  split; [exact Hm|]. split; [exact Hz|].
  destruct (@status_stays_within_bounds sin_zero
              [Post_scenario 1; Resume 0 cold_env] initial_world Hm Hz)
    as (reply & Heq & Hp & _).
  exists reply. split; assumption.
Defined.

Lemma status_reflects_the_latest_step_witness :
  alive first_task = true /\
  exists reply,
    get_status (snd (resume sin_zero first_task calm_env just_started))
    = (inr reply, snd (resume sin_zero first_task calm_env just_started)) /\
    status_metrics reply = task_metrics sin_zero first_task 0 calm 0.
Proof.
  split; [reflexivity|].
  destruct (@status_reflects_the_latest_step sin_zero first_task calm_env
              just_started eq_refl) as (reply & Heq & Hm & _).
  exists reply. split; [exact Heq | exact Hm].
Defined.

Section Controller.

Variable np_sin : Q -> Q.

(** X16.  [stop_simulation] is idempotent and clears nothing but the two
    flags: a second stop answers as the first and leaves the world of the
    first; after a stop [GET /api/status] reports not running and "idle"
    together with the metrics and the zone status of before the stop; the
    registry, the tasks and the inventory are as they were. *)
Theorem stop_is_idempotent_and_keeps_the_snapshot w :
  stop_simulation (snd (stop_simulation w))
  = (fst (stop_simulation w), snd (stop_simulation w)) /\
  http_status (fst (stop_simulation w)) = 200%Z /\
  fst (get_status (snd (stop_simulation w)))
  = inr {| simulation_running := false;
           current_scenario := "idle";
           status_metrics := metrics (simulation_state w);
           status_zone_status := zone_status (simulation_state w) |} /\
  active_connections (snd (stop_simulation w)) = active_connections w /\
  tasks (snd (stop_simulation w)) = tasks w /\
  fst (get_hosts (snd (stop_simulation w))) = fst (get_hosts w) /\
  fst (get_vms (snd (stop_simulation w))) = fst (get_vms w).
Proof. repeat split. Qed.

Lemma live_tasks_app w t :
  alive t = true ->
  live_tasks (set_tasks (tasks w ++ [t])%list w)
  = (live_tasks w ++ [t])%list.
Proof.
  intros Ha. unfold live_tasks. cbn [tasks set_tasks].
  rewrite filter_app. simpl. now rewrite Ha.
Qed.

(** X17.  The guard of [start_scenario] reads the [running] flag, which
    [stop_simulation] clears without ending any task: a stop followed by a
    start with a valid id is accepted whatever steppers are at work, and
    leaves every task that was live still live next to the new one.  With a
    live stepper before, two steppers write the snapshot from then on. *)
Theorem start_after_stop_adds_a_stepper scenario_id w :
  In scenario_id [1; 2; 3]%Z ->
  http_status
    (fst (start_scenario scenario_id (snd (stop_simulation w)))) = 200%Z /\
  exists t,
    alive t = true /\
    tasks (run np_sin [Post_stop; Post_scenario scenario_id] w)
    = (tasks w ++ [t])%list /\
    live_tasks (run np_sin [Post_stop; Post_scenario scenario_id] w)
    = (live_tasks w ++ [t])%list /\
    running
      (simulation_state
         (run np_sin [Post_stop; Post_scenario scenario_id] w)) = true.
Proof.
  intros Hid.
  destruct (@start_scenario_valid scenario_id (snd (stop_simulation w))
              eq_refl Hid) as (c & Heq).
  assert (Ha : alive {| coro := c; next_step := 0 |} = true)
    by now destruct c.
  split; [now rewrite Heq|].
  exists {| coro := c; next_step := 0 |}.
  split; [exact Ha|].
  cbn [run fold_left exec]. rewrite Heq. cbn [snd].
  split; [reflexivity|]. split; [|reflexivity].
  exact (@live_tasks_app
           (set_simulation_state (set_running true) (snd (stop_simulation w)))
           _ Ha).
Qed.

(** X18.  [start_scenario] does not name the scenario; the coroutine does,
    when it first runs.  Right after an accepted start [GET /api/status]
    reports running with the scenario, the metrics and the zone status of
    before the start; after the first resumption of the new task it
    reports the name of the started scenario. *)
Theorem scenario_is_named_at_the_first_step scenario_id env w :
  running (simulation_state w) = false ->
  In scenario_id [1; 2; 3]%Z ->
  fst (get_status (snd (start_scenario scenario_id w)))
  = inr {| simulation_running := true;
           current_scenario := scenario (simulation_state w);
           status_metrics := metrics (simulation_state w);
           status_zone_status := zone_status (simulation_state w) |} /\
  exists reply,
    fst (get_status
           (run np_sin
              [Post_scenario scenario_id; Resume (List.length (tasks w)) env]
              w)) = inr reply /\
    simulation_running reply = true /\
    current_scenario reply
    = (if (scenario_id =? 1)%Z then "high_load"
       else if (scenario_id =? 2)%Z then "zone_migration"
       else "resource_scaling").
Proof.
  intros Hrun Hid.
  assert (Hstart :
            start_scenario scenario_id w
            = (inr {| message := "Started scenario " ++ str_of_Z scenario_id;
                      status := "success" |},
               set_tasks
                 (tasks w
                  ++ [{| coro :=
                           if (scenario_id =? 1)%Z then Scenario_1_high_load
                           else if (scenario_id =? 2)%Z
                                then Scenario_2_zone_migration
                                else Scenario_3_resource_scaling;
                         next_step := 0 |}])%list
                 (set_simulation_state (set_running true) w))).
  { unfold start_scenario, bind, get, try_except, assign, modify, raise, ret,
      create_task.
    rewrite Hrun. simpl in Hid.
    destruct Hid as [<-|[<-|[<-|[]]]]; reflexivity. }
  split; [now rewrite Hstart|].
  eexists. split; [reflexivity|].
  cbn [run fold_left exec simulation_running current_scenario].
  rewrite Hstart. cbn [snd].
  match goal with
  | |- context [wake np_sin ?i env ?w1] =>
      assert (Hn : nth_error (tasks w1) i
                   = Some {| coro :=
                               if (scenario_id =? 1)%Z
                               then Scenario_1_high_load
                               else if (scenario_id =? 2)%Z
                                    then Scenario_2_zone_migration
                                    else Scenario_3_resource_scaling;
                             next_step := 0 |});
      [cbn [tasks set_tasks]; rewrite nth_error_app2 by lia;
       now rewrite Nat.sub_diag|];
      assert (Ha : alive {| coro :=
                              if (scenario_id =? 1)%Z
                              then Scenario_1_high_load
                              else if (scenario_id =? 2)%Z
                                   then Scenario_2_zone_migration
                                   else Scenario_3_resource_scaling;
                            next_step := 0 |} = true);
      [unfold alive, step_count; cbn [coro next_step];
       destruct (scenario_id =? 1)%Z; [reflexivity|];
       destruct (scenario_id =? 2)%Z; reflexivity|];
      rewrite (wake_scenario np_sin _ env w1 Hn Ha);
      destruct (wake_frame np_sin i env w1) as (-> & _)
  end.
  split; [reflexivity|].
  cbn [next_step Nat.eqb]. unfold scenario_name. cbn [coro].
  destruct (scenario_id =? 1)%Z; [reflexivity|].
  destruct (scenario_id =? 2)%Z; reflexivity.
Qed.


End Controller.

(** ** How many events a run sends *)

Section EventCount.

Variable np_sin : Q -> Q.




End EventCount.

(** ** Instances *)

Lemma registry_has_no_duplicates_witness :
  NoDup (active_connections three_subscribers) /\
  NoDup (active_connections
           (run sin_zero [Ws_connect 4%nat; Ws_disconnect 1%nat]
                three_subscribers)).
Proof.
  assert (H : NoDup (active_connections three_subscribers)).
  { simpl. repeat (constructor; [simpl; intuition discriminate|]).
    constructor. }
  split; [exact H|].
  exact (proj1 (@registry_has_no_duplicates sin_zero
                  [Ws_connect 4%nat; Ws_disconnect 1%nat]
                  three_subscribers H eq_refl)).
Defined.

Lemma interleaved_pass_isolates_failures_witness :
  existsb is_resume (List.concat [[Post_stop]; [Transport_closed 3%nat]])
  = false /\
  map to
      (sent_since three_subscribers
         (snd (broadcast_interleaved sin_zero hello
                 [[Post_stop]; [Transport_closed 3%nat]] three_subscribers)))
  = active_connections three_subscribers.
Proof.
  split; [reflexivity|].
  destruct (@interleaved_pass_isolates_failures sin_zero hello
              [[Post_stop]; [Transport_closed 3%nat]] three_subscribers
              eq_refl)
    as (failed & w' & Heq & _ & _ & _ & Hquiet).
  rewrite Heq. cbn [snd]. exact (proj1 (Hquiet eq_refl)).
Defined.

Lemma new_subscriber_is_served_witness :
  ~ In 9%nat (active_connections three_subscribers) /\
  ~ In 9%nat (closed three_subscribers) /\
  forallb keeps_registry (List.concat [[Post_stop]]) = true /\
  existsb (is_close_of 9%nat) (List.concat [[Post_stop]]) = false /\
  In 9%nat
     (active_connections
        (snd (broadcast_interleaved sin_zero hello [[Post_stop]]
                (snd (connect 9%nat three_subscribers))))).
Proof.
  assert (H1 : ~ In 9%nat (active_connections three_subscribers)).
  { intros H. cbv in H. destruct H as [H|[H|[H|[]]]]; discriminate. }
  assert (H2 : ~ In 9%nat (closed three_subscribers)).
  { intros H. cbv in H. destruct H as [H|[]]; discriminate. }
  split; [exact H1|]. split; [exact H2|].
  split; [reflexivity|]. split; [reflexivity|].
  destruct (@new_subscriber_is_served sin_zero 9%nat hello [[Post_stop]]
              three_subscribers H1 H2 eq_refl eq_refl)
    as (failed & w' & Heq & _ & _ & Hin).
  rewrite Heq. exact Hin.
Defined.

Lemma disconnect_during_pass_skips_a_subscriber_witness :
  active_connections two_open = [1; 2]%nat /\
  map to
      (sent_since two_open
         (snd (broadcast_interleaved sin_zero hello [[Ws_disconnect 1%nat]]
                 two_open)))
  = [1%nat].
Proof.
  split; [reflexivity|].
  assert (Hnd : NoDup [1; 2]%nat).
  { repeat (constructor; [simpl; intuition discriminate|]). constructor. }
  assert (Hopen : all_open two_open) by (intros c _ []).
  destruct (@disconnect_during_pass_skips_a_subscriber sin_zero hello
              1%nat 2%nat [] two_open eq_refl Hnd Hopen)
    as (_ & _ & Hs & _).
  rewrite Hs. reflexivity.
Defined.

Lemma only_reset_changes_the_inventory_witness :
  fst (get_vms (run sin_zero [Post_scenario 1; Resume 0 calm_env; Post_stop]
                    (booted calm)))
  = fst (get_vms (booted calm)).
Proof.
  exact (proj2 (@only_reset_changes_the_inventory sin_zero
                  [Post_scenario 1; Resume 0 calm_env; Post_stop]
                  (booted calm) eq_refl)).
Defined.

Lemma start_after_stop_adds_a_stepper_witness :
  List.length (live_tasks stopped_mid_run) = 1%nat /\
  List.length
    (live_tasks (run sin_zero [Post_stop; Post_scenario 2] stopped_mid_run))
  = 2%nat.
Proof.
  split; [reflexivity|].
  destruct (@start_after_stop_adds_a_stepper sin_zero 2%Z stopped_mid_run)
    as (_ & t & _ & _ & Hl & _); [simpl; auto|].
  rewrite Hl, length_app. reflexivity.
Defined.

Lemma scenario_is_named_at_the_first_step_witness :
  running (simulation_state initial_world) = false /\
  fst (get_status (snd (start_scenario 1 initial_world)))
  = inr {| simulation_running := true;
           current_scenario := "idle";
           status_metrics := zero_metrics;
           status_zone_status := zero_zone_status |}.
Proof.
  split; [reflexivity|].
  assert (Hid : In 1%Z [1; 2; 3]%Z) by (simpl; auto).
  exact (proj1 (@scenario_is_named_at_the_first_step sin_zero 1%Z calm_env
                  initial_world eq_refl Hid)).
Defined.


